(** * opgg-aram-lite: the scraping core of [main.py]

    A shallow embedding of the name normaliser, the page and image
    fetchers, the table extractor and the build aggregator, followed by
    the properties of the specification that are stated about them.

    Conventions of the embedding.
    - A Python [str] is a list of Unicode code points.  The Unicode
      case-mapping and decimal-digit tables of the interpreter are
      parameters of the development; everything on ASCII is written out.
    - A parsed document is an immutable tree.  A [Tag] object is a tree
      node together with the chain of its ancestors (its [.parent]
      links), which is what [find_parent] walks.
    - [GameItem] objects live in a store and are named by references,
      because [get_all_data] assigns [item.image_data] in place through
      the rows it has collected.
    - Network access, logging and the store are threaded through a small
      state-and-exception monad. *)

From Stdlib Require Import ZArith NArith String Ascii List Bool Lia.
From Stdlib Require DecimalString.
From stdpp Require Import base tactics option numbers list.
Import ListNotations.

#[local] Set Warnings "-register-all".

(** ** Python strings *)

Definition char := N.
Definition str := list char.
Definition bytes := list Byte.byte.

(** An ASCII literal as a [str]. *)
Definition u (s : string) : str := List.map N_of_ascii (list_ascii_of_string s).
Arguments u s%_string : simpl never.

Definition char_eqb (a b : char) : bool := N.eqb a b.

Fixpoint str_eqb (a b : str) : bool :=
  match a, b with
  | [], [] => true
  | c :: a', d :: b' => char_eqb c d && str_eqb a' b'
  | _, _ => false
  end.

(** [bool(x)] for a [str], a list and an optional value. *)
Definition truthy {A} (l : list A) : bool :=
  match l with [] => false | _ :: _ => true end.

Definition truthy_opt (o : option str) : bool :=
  match o with Some s => truthy s | None => false end.

(** [str.isspace] on one code point: the white-space table of CPython. *)
Definition isspace (c : char) : bool :=
  (N.leb 0x09 c && N.leb c 0x0d) || (N.leb 0x1c c && N.leb c 0x20)
  || N.eqb c 0x85 || N.eqb c 0xa0 || N.eqb c 0x1680
  || (N.leb 0x2000 c && N.leb c 0x200a)
  || N.eqb c 0x2028 || N.eqb c 0x2029 || N.eqb c 0x202f
  || N.eqb c 0x205f || N.eqb c 0x3000.

Fixpoint lstrip (s : str) : str :=
  match s with
  | c :: s' => if isspace c then lstrip s' else s
  | [] => []
  end.

Definition rstrip (s : str) : str := rev (lstrip (rev s)).

(** Dropping the leading code points that satisfy [sp]. *)
Fixpoint lstrip_with (sp : char -> bool) (s : str) : str :=
  match s with
  | c :: s' => if sp c then lstrip_with sp s' else s
  | [] => []
  end.

(** [s.strip()] *)
Definition strip (s : str) : str := rstrip (lstrip s).

(** [s.startswith(p)] *)
Fixpoint startswith (s p : str) {struct p} : bool :=
  match p with
  | [] => true
  | c :: p' =>
      match s with
      | d :: s' => char_eqb c d && startswith s' p'
      | [] => false
      end
  end.

(** [sub in s] *)
Fixpoint contains (s sub : str) : bool :=
  startswith s sub
  || match s with
     | [] => false
     | _ :: s' => contains s' sub
     end.

(** [re.findall(r"\S+", s)]: the maximal runs of non-space code points. *)
Fixpoint nonwhitespace_runs (s : str) (cur : str) : list str :=
  match s with
  | [] => if truthy cur then [cur] else []
  | c :: s' =>
      if isspace c
      then (if truthy cur then [cur] else []) ++ nonwhitespace_runs s' []
      else nonwhitespace_runs s' (cur ++ [c])
  end.

(** [" ".join(l)] *)
Fixpoint join_space (l : list str) : str :=
  match l with
  | [] => []
  | [a] => a
  | a :: l' => a ++ 32%N :: join_space l'
  end.

Definition is_a_z (c : char) : bool := N.leb 97 c && N.leb c 122.

(** [re.sub(r'[^a-z]', '', s)] *)
Definition sub_non_a_z (s : str) : str := List.filter is_a_z s.

(** ** Exceptions and results *)

(** The exceptions of the model.  [ReferenceError] stands for the use of
    a reference that is not in the store; Python has no such failure, and
    the properties of [get_all_data] show that it is never raised. *)
Inductive exception :=
| ValueError
| IndexError
| ReferenceError
| HTTPError (status : Z)
| ConnectionError
| Timeout
| TooManyRedirects
| InvalidURL
| ParserRejectedMarkup
| OtherException (name : str).

(** [isinstance(e, requests.RequestException)] *)
Definition is_RequestException (e : exception) : bool :=
  match e with
  | HTTPError _ | ConnectionError | Timeout | TooManyRedirects | InvalidURL => true
  | _ => false
  end.

(** [isinstance(e, ValueError)]; [requests.InvalidURL] derives from it. *)
Definition is_ValueError (e : exception) : bool :=
  match e with
  | ValueError | InvalidURL => true
  | _ => false
  end.

(** [isinstance(e, Exception)]: every exception of the model. *)
Definition is_Exception (e : exception) : bool := true.

Inductive result (A : Type) :=
| Val (a : A)
| Raise (e : exception).
Arguments Val {A} a.
Arguments Raise {A} e.

(** ** Parsed documents (the part of BeautifulSoup the program uses) *)

(** The Python class of a string node; [get_text] keeps some of them. *)
Inductive string_class :=
| NavigableString | CData | Comment | Declaration | Doctype
| ProcessingInstruction | Script | Stylesheet | TemplateString
| RubyTextString | RubyParenthesisString.

(** A document tree.  [attrs] is the attribute dictionary of a tag (its
    keys are distinct), with the raw attribute text as value; a valueless
    attribute has [""]. *)
Inductive markup :=
| Tag (name : str) (attrs : list (str * str)) (contents : list markup)
| Text (cls : string_class) (s : str).

(** An element object: its node and its ancestors, nearest first. *)
Record PageElement := { this : markup; parents : list markup }.

(** The [BeautifulSoup] object is a tag named [[document]] without parent. *)
Definition BeautifulSoup_object (contents : list markup) : PageElement :=
  {| this := Tag (u "[document]") [] contents; parents := [] |}.

Definition is_tag (e : PageElement) : bool :=
  match this e with Tag _ _ _ => true | Text _ _ => false end.

(** [e.name == n] *)
Definition named (n : str) (e : PageElement) : bool :=
  match this e with Tag n' _ _ => str_eqb n' n | Text _ _ => false end.

(** [e.get(key)] *)
Definition get (e : PageElement) (key : str) : option str :=
  match this e with
  | Tag _ attrs _ =>
      match List.find (fun kv => str_eqb (fst kv) key) attrs with
      | Some kv => Some (snd kv)
      | None => None
      end
  | Text _ _ => None
  end.

(** [e.get(key, default)] *)
Definition get_or (e : PageElement) (key : str) (default : str) : str :=
  match get e key with Some v => v | None => default end.

(** The [class_=c] filter: [class] is a multi-valued attribute, kept as
    the list of its white-space separated tokens; the filter accepts a tag
    when one token is [c] or the tokens joined by a space are [c]. *)
Definition with_class (c : str) (e : PageElement) : bool :=
  match get e (u "class") with
  | Some v =>
      let tokens := nonwhitespace_runs v [] in
      existsb (fun t => str_eqb t c) tokens
      || (Nat.ltb 1 (length tokens) && str_eqb (join_space tokens) c)
  | None => false
  end.

(** A node and everything below it, in document order. *)
Fixpoint subtree (ancestors : list markup) (m : markup) : list PageElement :=
  {| this := m; parents := ancestors |} ::
  match m with
  | Tag _ _ cs => flat_map (subtree (m :: ancestors)) cs
  | Text _ _ => []
  end.

(** [e.descendants] *)
Definition descendants (e : PageElement) : list PageElement :=
  match this e with
  | Tag _ _ cs => flat_map (subtree (this e :: parents e)) cs
  | Text _ _ => []
  end.

(** [e.find_all(...)]: the matching tags below [e], in document order. *)
Definition find_all (e : PageElement) (matches : PageElement -> bool) : list PageElement :=
  List.filter (fun d => is_tag d && matches d) (descendants e).

(** [e.find(...)]: the first of them. *)
Definition find (e : PageElement) (matches : PageElement -> bool) : option PageElement :=
  List.find (fun d => is_tag d && matches d) (descendants e).

(** The ancestors of an element as element objects, nearest first. *)
Fixpoint ancestors_of (ps : list markup) : list PageElement :=
  match ps with
  | [] => []
  | p :: ps' => {| this := p; parents := ps' |} :: ancestors_of ps'
  end.

(** [e.find_parent(...)]: the nearest matching ancestor. *)
Definition find_parent (e : PageElement) (matches : PageElement -> bool) : option PageElement :=
  List.find matches (ancestors_of (parents e)).

(** The string classes [get_text] collects below a tag of a given name. *)
Definition interesting_string_types (owner : markup) (cls : string_class) : bool :=
  match owner with
  | Tag n _ _ =>
      if str_eqb n (u "rt") then
        match cls with RubyTextString => true | _ => false end
      else if str_eqb n (u "rp") then
        match cls with RubyParenthesisString => true | _ => false end
      else if str_eqb n (u "style") then
        match cls with Stylesheet => true | _ => false end
      else if str_eqb n (u "script") then
        match cls with Script => true | _ => false end
      else if str_eqb n (u "template") then
        match cls with TemplateString => true | _ => false end
      else
        match cls with NavigableString | CData => true | _ => false end
  | Text _ _ => false
  end.

(** [e._all_strings(strip)] *)
Definition all_strings (e : PageElement) (strip_ : bool) : list str :=
  flat_map
    (fun d =>
       match this d with
       | Text cls s =>
           if interesting_string_types (this e) cls then
             if strip_ then
               (let s' := strip s in if truthy s' then [s'] else [])
             else [s]
           else []
       | Tag _ _ _ => []
       end)
    (descendants e).

(** [e.get_text(strip=strip_)], also [e.text] when [strip_] is false. *)
Definition get_text (e : PageElement) (strip_ : bool) : str :=
  concat (all_strings e strip_).

(** ** The state-and-exception monad

    A computation takes the state, and gives a value or a raised
    exception together with the state it leaves behind: what was written
    before an exception was raised stays written. *)

Definition M (S A : Type) : Type := S -> result A * S.

Definition ret {S A} (a : A) : M S A := fun st => (Val a, st).

Definition bind {S A B} (m : M S A) (k : A -> M S B) : M S B :=
  fun st =>
    match m st with
    | (Val a, st') => k a st'
    | (Raise e, st') => (Raise e, st')
    end.

Definition raise {S A} (e : exception) : M S A := fun st => (Raise e, st).

(** A pure operation that may raise. *)
Definition lift {S A} (r : result A) : M S A := fun st => (r, st).

(** [try: body  except <catches> as e: handler e] *)
Definition try_except {S A} (body : M S A) (catches : exception -> bool)
    (handler : exception -> M S A) : M S A :=
  fun st =>
    match body st with
    | (Val a, st') => (Val a, st')
    | (Raise e, st') => if catches e then handler e st' else (Raise e, st')
    end.

Declare Scope monad_scope.
Delimit Scope monad_scope with M.
Notation "x <- m ;; k" := (bind m (fun x => k))
  (at level 100, m at next level, right associativity) : monad_scope.
Notation "m ;;; k" := (bind m (fun _ => k))
  (at level 100, right associativity) : monad_scope.
Open Scope monad_scope.

(** [for x in xs: body], with the local variables the body assigns. *)
Fixpoint for_in {S A V} (xs : list A) (body : A -> V -> M S V) (vars : V) : M S V :=
  match xs with
  | [] => ret vars
  | x :: xs' => vars' <- body x vars ;; for_in xs' body vars'
  end.

(** [[f(x) for x in xs if cond(x)]] *)
Fixpoint list_comprehension {S A B} (xs : list A) (cond : A -> bool) (f : A -> M S B)
  : M S (list B) :=
  match xs with
  | [] => ret []
  | x :: xs' =>
      if cond x then
        y <- f x ;; ys <- list_comprehension xs' cond f ;; ret (y :: ys)
      else list_comprehension xs' cond f
  end.

(** [l[i]] *)
Definition index {S A} (l : list A) (i : nat) : M S A :=
  match l !! i with
  | Some x => ret x
  | None => raise IndexError
  end.

(** ** Data models *)

Record GameItem := {
  name : str;
  image_url : str;
  count : Z;
  image_data : option bytes
}.

(** A reference to a [GameItem] object of the store. *)
Abbreviation ref := nat (only parsing).

Record BuildRow := {
  items : list ref;
  win_rate : str;
  pick_rate : str;
  games : str
}.

(** What [requests] hands back for one GET. *)
Record Response := {
  status_code : Z;
  text : str;
  content : bytes
}.

Inductive log_level := INFO | WARNING | ERROR.

Inductive log_message :=
| Requesting (url : str)
| Failed_to_fetch (url : str) (e : exception)
| Could_not_download (url : str) (e : exception).

(** What the worker schedules on the interface thread with [root.after]. *)
Inductive callback :=
| _handle_error
| _handle_not_found
| _update_ui (results : list (str * list BuildRow)).

(** The text each callback puts on the status label. *)
Definition status_text (c : callback) : str :=
  match c with
  | _handle_error => u "Connection Error"
  | _handle_not_found => u "Champion Not Found"
  | _update_ui _ => u "Success"
  end.

(** ** The state of a run: the store of items, the network, the log *)

Record state (World : Type) := {
  heap : list GameItem;
  net : World;
  log : list (log_level * log_message)
}.
Arguments heap {World} s.
Arguments net {World} s.
Arguments log {World} s.

Definition set_heap {World} (h : list GameItem) (st : state World) : state World :=
  {| heap := h; net := net st; log := log st |}.

Definition set_net {World} (w : World) (st : state World) : state World :=
  {| heap := heap st; net := w; log := log st |}.

Definition set_log {World} (l : list (log_level * log_message)) (st : state World)
  : state World :=
  {| heap := heap st; net := net st; log := l |}.

(** [GameItem(name=..., image_url=..., count=...)]: a new object. *)
Definition new_GameItem {World} (name image_url : str) (count : Z) : M (state World) ref :=
  fun st =>
    (Val (length (heap st)),
     set_heap (heap st ++ [{| name := name; image_url := image_url;
                              count := count; image_data := None |}]) st).

(** Reading the object behind a reference. *)
Definition deref {World} (r : ref) : M (state World) GameItem :=
  fun st =>
    match heap st !! r with
    | Some g => (Val g, st)
    | None => (Raise ReferenceError, st)
    end.

(** [item.image_data = d] *)
Definition set_image_data {World} (r : ref) (d : option bytes) : M (state World) unit :=
  fun st =>
    match heap st !! r with
    | Some g =>
        (Val tt,
         set_heap (<[r := {| name := name g; image_url := image_url g;
                             count := count g; image_data := d |}]> (heap st)) st)
    | None => (Raise ReferenceError, st)
    end.

(** [logger.<level>(message)] *)
Definition logger {World} (lvl : log_level) (msg : log_message) : M (state World) unit :=
  fun st => (Val tt, set_log (log st ++ [(lvl, msg)]) st).

(** ** Sample inputs

    A small interpreter, network and page on which the properties below
    are instantiated. *)

Module Sample.

(** An interpreter whose [lower] leaves non-ASCII code points as they
    are, that knows no non-ASCII digit, with CPython's default limit. *)
Definition unicode_lower (s : str) (i : nat) : str :=
  match s !! i with Some c => [c] | None => [] end.

Definition unicode_decimal (c : char) : option N := None.

Definition int_max_str_digits : nat := 4300.

(** A network that knows three addresses; its state counts the requests. *)
Definition World := nat.

Definition session_get (url : str) (timeout : Z) (w : World) : result Response * World :=
  (if str_eqb url (u "https://op.gg/lol/modes/aram/nobody/build") then
     Val {| status_code := 404; text := u "Not Found"; content := [] |}
   else if str_eqb url (u "https://cdn.example/boots.png") then
     Val {| status_code := 200; text := []; content := [Byte.x89; Byte.x50] |}
   else if str_eqb url (u "https://cdn.example/gone.png") then
     Val {| status_code := 403; text := u "Forbidden"; content := [Byte.x46] |}
   else Raise ConnectionError,
   S w).

(** A parser that takes the whole text as one string node. *)
Definition html_parser (s : str) : result PageElement :=
  Val (BeautifulSoup_object [Text NavigableString s]).

Definition start : state World := {| heap := []; net := 0; log := [] |}.

Definition el (n : string) (a : list (string * string)) (cs : list markup) : markup :=
  Tag (u n) (List.map (fun kv => (u (fst kv), u (snd kv))) a) cs.

Definition txt (s : string) : markup := Text NavigableString (u s).

(** An image under a [relative] container that carries a badge. *)
Definition boots_img : markup :=
  el "img" [("src", "//cdn.example/boots.png"); ("alt", "Boots")]%string [].

Definition stacked (badge : string) : markup :=
  el "div" [("class", "relative w-8")]%string
    [boots_img; el "div" [("class", "absolute badge")]%string [txt badge]].

Definition stacked_img (badge : string) : PageElement :=
  {| this := boots_img; parents := [stacked badge] |}.

(** An image without container. *)
Definition plain_img : PageElement :=
  {| this := el "img" [("src", "//cdn.example/gone.png")]%string []; parents := [] |}.

(** Rows with two and with three empty cells. *)
Definition two_cells : PageElement :=
  {| this := el "tr" [] [el "td" [] []; el "td" [] []]; parents := [] |}.

Definition three_cells : PageElement :=
  {| this := el "tr" [] [el "td" [] []; el "td" [] []; el "td" [] []]; parents := [] |}.

(** A page with one table, headed "Core Builds Overview": a full row
    whose first item is stacked, a row of two cells, a row of three
    empty cells. *)
Definition page (badge : string) : PageElement :=
  BeautifulSoup_object
    [ el "table" []
        [ el "thead" [] [el "tr" [] [el "th" [] [txt "Core Builds Overview"]]];
          el "tbody" []
            [ el "tr" []
                [ el "td" []
                    [ stacked badge;
                      el "img" [("alt", "no source")]%string [];
                      el "img" [("src", "//cdn.example/gone.png")]%string [] ];
                  el "td" [] [el "strong" [] [txt " 12% "]; el "span" [] [txt "1,234"]];
                  el "td" [] [el "strong" [] [txt "55%"]] ];
              el "tr" [] [el "td" [] []; el "td" [] []];
              el "tr" [] [el "td" [] []; el "td" [] []; el "td" [] []] ] ] ].

(** A header cell outside any table, and a table without body. *)
Definition orphan_header : PageElement :=
  BeautifulSoup_object [el "div" [] [el "th" [] [txt "Boots"]]].

Definition bodiless_table : PageElement :=
  BeautifulSoup_object [el "table" [] [el "tr" [] [el "th" [] [txt "Boots"]]]].

(** A site that also serves the build page of one champion, a parser
    that knows that page, and an image library that accepts the bytes
    that start like a PNG file. *)
Definition site_get (url : str) (timeout : Z) (w : World) : result Response * World :=
  if str_eqb url (u "https://op.gg/lol/modes/aram/velkoz/build") then
    (Val {| status_code := 200; text := u "velkoz"; content := [] |}, S w)
  else session_get url timeout w.

Definition site_parser (s : str) : result PageElement :=
  if str_eqb s (u "velkoz") then Val (page "3") else html_parser s.

(** A parser that rejects every text. *)
Definition rejecting_parser (s : str) : result PageElement := Raise ParserRejectedMarkup.

(** A page with a table of text only, headed "Skills". *)
Definition text_page : PageElement :=
  BeautifulSoup_object
    [ el "table" []
        [ el "thead" [] [el "tr" [] [el "th" [] [txt "Skills"]]];
          el "tbody" []
            [ el "tr" []
                [ el "td" [] [txt "Q W E"];
                  el "td" [] [el "strong" [] [txt "40%"]; el "span" [] [txt "900"]];
                  el "td" [] [el "strong" [] [txt "51%"]] ] ] ] ].

(** Addresses and an answer used by the runs below. *)
Definition nobody_url : str := u "https://op.gg/lol/modes/aram/nobody/build".
Definition velkoz_url : str := u "https://op.gg/lol/modes/aram/velkoz/build".
Definition not_found : Response :=
  {| status_code := 404; text := u "Not Found"; content := [] |}.

Definition Photo := bytes.

Definition open_image (data : bytes) : result Photo :=
  match data with
  | Byte.x89 :: _ => Val data
  | _ => Raise (OtherException (u "UnidentifiedImageError"))
  end.

End Sample.

Section Program.

(** The interpreter's Unicode tables and integer-parsing limit. *)

(** [unicode_lower s i]: what [s.lower()] puts for the non-ASCII code
    point at index [i] of [s] (the mapping of capital sigma depends on
    its neighbours, hence the whole string). *)
Variable unicode_lower : str -> nat -> str.

(** The decimal value of a code point from 127 on, for those of
    category Nd. *)
Variable unicode_decimal : char -> option N.

(** [sys.get_int_max_str_digits()]; [0] switches the limit off. *)
Variable int_max_str_digits : nat.

(** The network: one GET of the session, with its time-out in seconds. *)
Variable World : Type.
Variable session_get : str -> Z -> World -> result Response * World.

(** [BeautifulSoup(markup, "html.parser")] *)
Variable html_parser : str -> result PageElement.

#[local] Abbreviation St := (state World).

(** *** [str.lower] *)

Definition ascii_lower (c : char) : char :=
  if N.leb 65 c && N.leb c 90 then (c + 32)%N else c.

Fixpoint lower_from (whole : str) (i : nat) (rest : str) : str :=
  match rest with
  | [] => []
  | c :: rest' =>
      (if N.ltb c 128 then [ascii_lower c] else unicode_lower whole i)
      ++ lower_from whole (S i) rest'
  end.

Definition lower (s : str) : str := lower_from s 0 s.

(** *** [int(s)] for a [str] *)

(** The C white space that the integer parser skips. *)
Definition Py_ISSPACE (c : char) : bool :=
  (N.leb 9 c && N.leb c 13) || N.eqb c 32.

Definition digit_value (c : char) : option Z :=
  if N.leb 48 c && N.leb c 57 then Some (Z.of_N c - 48)%Z else None.

(** A string that is not pure ASCII is first rewritten: Unicode spaces
    become a blank, Unicode decimal digits their ASCII digit, and the
    first other non-ASCII code point becomes [?] and ends the text. *)
Fixpoint transform_decimal_and_space (s : str) : str :=
  match s with
  | [] => []
  | ch :: s' =>
      if N.ltb ch 127 then ch :: transform_decimal_and_space s'
      else if isspace ch then 32%N :: transform_decimal_and_space s'
      else match unicode_decimal ch with
           | Some d => (48 + d)%N :: transform_decimal_and_space s'
           | None => [63%N]
           end
  end.

Definition to_ascii_for_int (s : str) : str :=
  if forallb (fun c => N.ltb c 128) s then s else transform_decimal_and_space s.

(** The digit scan: digits with single underscores between them.  [prev]
    is the last code point read; the result is the value, the number of
    digits and the text left, or nothing on a misplaced underscore. *)
Fixpoint scan_digits (s : str) (prev : char) (acc : Z) (digits : nat)
  : option (Z * nat * str) :=
  let stop := if N.eqb prev 95 then None else Some (acc, digits, s) in
  match s with
  | [] => stop
  | c :: s' =>
      if N.eqb c 95 then
        if N.eqb prev 95 then None else scan_digits s' c acc digits
      else
        match digit_value c with
        | Some d => scan_digits s' c (10 * acc + d)%Z (S digits)
        | None => stop
        end
  end.

Definition int (s : str) : result Z :=
  let s := lstrip_with Py_ISSPACE (to_ascii_for_int s) in
  let '(negative, s) :=
    match s with
    | 43%N :: s' => (false, s')
    | 45%N :: s' => (true, s')
    | _ => (false, s)
    end in
  match s with
  | 95%N :: _ => Raise ValueError
  | _ =>
      match scan_digits s 0%N 0%Z 0 with
      | None => Raise ValueError
      | Some (v, digits, rest) =>
          if Nat.eqb digits 0 then Raise ValueError
          else if Nat.ltb 0 int_max_str_digits && Nat.ltb int_max_str_digits digits
          then Raise ValueError
          else if forallb Py_ISSPACE rest
          then Val (if negative : bool then (- v)%Z else v)
          else Raise ValueError
      end
  end.

(** [self.session.get(url, timeout=t)] *)
Definition session_get_ (url : str) (timeout : Z) : M St Response :=
  fun st =>
    let '(r, w) := session_get url timeout (net st) in
    (r, set_net w st).

(** [response.raise_for_status()] *)
Definition raise_for_status (response : Response) : M St unit :=
  if Z.leb 400 (status_code response) && Z.ltb (status_code response) 600
  then raise (HTTPError (status_code response))
  else ret tt.

(** *** Helper functions *)

Definition normalize_champion_name (name : str) : str :=
  let clean := lower name in
  let clean := sub_non_a_z clean in
  clean.

(** *** Scraper logic *)

Definition fetch_page (url : str) : M St (option PageElement) :=
  try_except
    (logger INFO (Requesting url) ;;;
     response <- session_get_ url 10 ;;
     if Z.eqb (status_code response) 404 then ret None
     else
       raise_for_status response ;;;
       soup <- lift (html_parser (text response)) ;;
       ret (Some soup))
    is_RequestException
    (fun e => logger ERROR (Failed_to_fetch url e) ;;; ret None).

(** [url] is reassigned before the request, so the warning names the
    address that was requested. *)
Definition fetch_image_bytes (url : str) : M St (option bytes) :=
  let url := if startswith url (u "//") then u "https:" ++ url else url in
  try_except
    (resp <- session_get_ url 5 ;;
     if Z.eqb (status_code resp) 200 then ret (Some (content resp))
     else ret None)
    is_Exception
    (fun e => logger WARNING (Could_not_download url e) ;;; ret None).

Definition _extract_item_details (img_tag : PageElement) : M St ref :=
  let name := get_or img_tag (u "alt") (u "Unknown Item") in
  let src := get_or img_tag (u "src") (u "") in
  let count := 1%Z in
  count <-
    match find_parent img_tag (fun e => named (u "div") e && with_class (u "relative") e) with
    | Some parent_div =>
        match find parent_div (fun e => named (u "div") e && with_class (u "absolute") e) with
        | Some count_div =>
            try_except (lift (int (get_text count_div true)))
              is_ValueError
              (fun _ => ret 1%Z)
        | None => ret count
        end
    | None => ret count
    end ;;
  new_GameItem name src count.

(** The test of the header search: a [th] whose text contains the
    header text, both lowered. *)
Definition header_matches (header_text : str) (tag : PageElement) : bool :=
  named (u "th") tag && contains (lower (get_text tag false)) (lower header_text).

(** The body of the loop over the rows; [data] is the list being built. *)
Definition extract_row (row : PageElement) (data : list BuildRow) : M St (list BuildRow) :=
  let cols := find_all row (named (u "td")) in
  if negb (truthy cols) || Nat.ltb (length cols) 3 then ret data
  else
    item_container <- index cols 0 ;;
    let images := find_all item_container (named (u "img")) in
    items_list <-
      list_comprehension images (fun img => truthy_opt (get img (u "src")))
        _extract_item_details ;;
    stats_div <- index cols 1 ;;
    let pick_rate :=
      match find stats_div (named (u "strong")) with
      | Some e => get_text e true
      | None => u "N/A"
      end in
    let games :=
      match find stats_div (named (u "span")) with
      | Some e => get_text e true
      | None => u "N/A"
      end in
    win_rate_div <- index cols 2 ;;
    let win_rate :=
      match find win_rate_div (named (u "strong")) with
      | Some e => get_text e true
      | None => u "N/A"
      end in
    ret (data ++ [{| items := items_list; win_rate := win_rate;
                     pick_rate := pick_rate; games := games |}]).

Definition _extract_table_by_header (soup : PageElement) (header_text : str)
  : M St (list BuildRow) :=
  let data := [] in
  match find soup (header_matches header_text) with
  | None => ret []
  | Some header =>
      match find_parent header (named (u "table")) with
      | None => ret []
      | Some table =>
          match find table (named (u "tbody")) with
          | None => ret []
          | Some tbody =>
              let rows := find_all tbody (named (u "tr")) in
              for_in rows extract_row data
          end
      end
  end.

(** The pre-fetch of one item's image. *)
Definition prefetch_item (item : ref) (_ : unit) : M St unit :=
  g <- deref item ;;
  if truthy (image_url g) then
    d <- fetch_image_bytes (image_url g) ;;
    set_image_data item d
  else ret tt.

Definition get_all_data (soup : PageElement) : M St (list (str * list BuildRow)) :=
  core <- _extract_table_by_header soup (u "Core Builds") ;;
  starter <- _extract_table_by_header soup (u "Starter Items") ;;
  boots <- _extract_table_by_header soup (u "Boots") ;;
  skills <- _extract_table_by_header soup (u "Skill") ;;
  let results :=
    [ (u "Core Builds", core); (u "Starter Items", starter);
      (u "Boots", boots); (u "Skills", skills) ] in
  let all_rows := flat_map snd results in
  for_in all_rows (fun row _ => for_in (items row) prefetch_item tt) tt ;;;
  ret results.

(** *** The worker of the interface *)

Definition _worker_thread (url : str) : M St callback :=
  soup <- fetch_page url ;;
  match soup with
  | None => ret _handle_error
  | Some soup =>
      if negb (contains (get_text soup false) (u "Core Builds"))
         && negb (contains (get_text soup false) (u "Starter Items"))
      then ret _handle_not_found
      else
        results <- get_all_data soup ;;
        ret (_update_ui results)
  end.

(** *** The interface

    The state of the window that the program reads and writes, and the
    handlers that run on the interface thread.  A widget is recorded with
    its style or colours, its text and its children in creation order;
    fonts, sizes and geometry options are not recorded.  The three
    callbacks are named after the methods without the leading underscore,
    which the constructors of [callback] carry. *)

(** [Image.open], [resize] and [ImageTk.PhotoImage] on the bytes of an
    image: the photo, or the exception that one of them raises. *)
Variable Photo : Type.
Variable open_image : bytes -> result Photo.

Inductive button_state := NORMAL | DISABLED.

Inductive dialog := showerror | showwarning.

Inductive widget :=
| Frame (style bg : option str) (children : list widget)
| Label (style : option str) (text : str) (bg fg : option str)
| ImageLabel (image : Photo) (bg : str).

Record AramBuildApp := {
  champ_var : str;
  fetch_btn : button_state;
  status_lbl : str * str;
  photo_refs : list Photo;
  tabs : list (str * list widget);
  dialogs : list (dialog * str * str)
}.

(** [str(n)] for an integer. *)
Definition str_of_int (n : Z) : str :=
  u (DecimalString.NilZero.string_of_int (Z.to_int n)).

(** The window after [__init__]: the layout of [_build_layout] with its
    four empty tabs. *)
Definition app_init : AramBuildApp :=
  {| champ_var := u "Vel'Koz";
     fetch_btn := NORMAL;
     status_lbl := (u "Ready", u "gray");
     photo_refs := [];
     tabs := [ (u "Core Builds", []); (u "Starter Items", []);
               (u "Boots", []); (u "Skills", []) ];
     dialogs := [] |}.

(** [self.status_lbl.config(text=..., foreground=...)] *)
Definition status_lbl_config (text_ fg : str) : M AramBuildApp unit :=
  fun a =>
    (Val tt,
     {| champ_var := champ_var a; fetch_btn := fetch_btn a; status_lbl := (text_, fg);
        photo_refs := photo_refs a; tabs := tabs a; dialogs := dialogs a |}).

(** [self.fetch_btn.config(state=...)] *)
Definition fetch_btn_config (s : button_state) : M AramBuildApp unit :=
  fun a =>
    (Val tt,
     {| champ_var := champ_var a; fetch_btn := s; status_lbl := status_lbl a;
        photo_refs := photo_refs a; tabs := tabs a; dialogs := dialogs a |}).

(** [messagebox.showerror(title, message)] and [showwarning]. *)
Definition messagebox (kind : dialog) (title message : str) : M AramBuildApp unit :=
  fun a =>
    (Val tt,
     {| champ_var := champ_var a; fetch_btn := fetch_btn a; status_lbl := status_lbl a;
        photo_refs := photo_refs a; tabs := tabs a;
        dialogs := dialogs a ++ [(kind, title, message)] |}).

(** [self.photo_refs.append(tk_img)] *)
Definition photo_refs_append (tk_img : Photo) : M AramBuildApp unit :=
  fun a =>
    (Val tt,
     {| champ_var := champ_var a; fetch_btn := fetch_btn a; status_lbl := status_lbl a;
        photo_refs := photo_refs a ++ [tk_img]; tabs := tabs a; dialogs := dialogs a |}).

(** [self.tabs[category]]: the children of the frame of a tab. *)
Definition tabs_get (category : str) (ts : list (str * list widget))
  : option (list widget) :=
  match List.find (fun kv => str_eqb (fst kv) category) ts with
  | Some kv => Some (snd kv)
  | None => None
  end.

Definition tab_frame (category : str) : M AramBuildApp (list widget) :=
  fun a =>
    match tabs_get category (tabs a) with
    | Some ws => (Val ws, a)
    | None => (Raise (OtherException (u "KeyError")), a)
    end.

(** A widget created with the frame of a tab as parent. *)
Fixpoint tabs_add (category : str) (w : widget) (ts : list (str * list widget))
  : list (str * list widget) :=
  match ts with
  | [] => []
  | kv :: ts' =>
      if str_eqb (fst kv) category then (fst kv, snd kv ++ [w]) :: ts'
      else kv :: tabs_add category w ts'
  end.

Definition tab_add (category : str) (w : widget) : M AramBuildApp unit :=
  fun a =>
    (Val tt,
     {| champ_var := champ_var a; fetch_btn := fetch_btn a; status_lbl := status_lbl a;
        photo_refs := photo_refs a; tabs := tabs_add category w (tabs a);
        dialogs := dialogs a |}).

(** [on_fetch_click]: the address handed to the worker thread it starts,
    or nothing when it returns at once. *)
Definition on_fetch_click : M AramBuildApp (option str) :=
  fun a =>
    let raw_name := strip (champ_var a) in
    if negb (truthy raw_name) then (Val None, a)
    else
      let clean_name := normalize_champion_name raw_name in
      let url := u "https://op.gg/lol/modes/aram/" ++ clean_name ++ u "/build" in
      (Val (Some url),
       {| champ_var := champ_var a;
          fetch_btn := DISABLED;
          status_lbl := (u "Searching for '" ++ clean_name ++ u "'...", u "blue");
          photo_refs := [];
          tabs := List.map (fun kv => (fst kv, [])) (tabs a);
          dialogs := dialogs a |}).

Definition handle_error : M AramBuildApp unit :=
  status_lbl_config (u "Connection Error") (u "red") ;;;
  messagebox showerror (u "Error") (u "Could not connect to OP.GG. Check internet.") ;;;
  fetch_btn_config NORMAL.

Definition handle_not_found : M AramBuildApp unit :=
  status_lbl_config (u "Champion Not Found") (u "red") ;;;
  messagebox showwarning (u "Not Found")
    (u "Could not find ARAM data for this champion." ++ 10%N :: u "Check the spelling.") ;;;
  fetch_btn_config NORMAL.

(** The wrapper frame of one item of a row, with what it shows; the
    store [h] is where the worker left the items.  [if item.image_data]
    fails for absent and for empty bytes alike. *)
Definition render_item (h : list GameItem) (bg_color : str) (item : ref) : M AramBuildApp widget :=
  match h !! item with
  | None => raise ReferenceError
  | Some g =>
      let name_label :=
        ret (Frame None (Some bg_color)
               [Label None (take 5 (name g)) (Some bg_color) None]) in
      match image_data g with
      | Some data =>
          if truthy data then
            try_except
              (tk_img <- lift (open_image data) ;;
               photo_refs_append tk_img ;;;
               ret (Frame None (Some bg_color)
                      (ImageLabel tk_img bg_color
                       :: if Z.ltb 1 (count g)
                          then [Label None (u "x" ++ str_of_int (count g))
                                  (Some (u "black")) (Some (u "white"))]
                          else [])))
              is_Exception
              (fun _ => ret (Frame None (Some bg_color)
                               [Label None (u "?") (Some bg_color) None]))
          else name_label
      | None => name_label
      end
  end.

(** The frame of one row: three statistics and the frame of the items. *)
Definition render_row (h : list GameItem) (row_data : BuildRow) (i : nat) : M AramBuildApp widget :=
  let bg_color := if Nat.eqb (i mod 2) 0 then u "#f3f4f6" else u "white" in
  wrappers <-
    for_in (items row_data)
      (fun item ws => w <- render_item h bg_color item ;; ret (ws ++ [w])) [] ;;
  ret (Frame None None
         [ Label None (win_rate row_data) (Some bg_color) (Some (u "blue"));
           Label None (pick_rate row_data) (Some bg_color) None;
           Label None (games row_data) (Some bg_color) (Some (u "gray"));
           Frame None (Some bg_color) wrappers ]).

Definition header_frame : widget :=
  Frame (Some (u "Header.TLabel")) None
    [ Label (Some (u "Header.TLabel")) (u "Win Rate") None None;
      Label (Some (u "Header.TLabel")) (u "Pick Rate") None None;
      Label (Some (u "Header.TLabel")) (u "Games") None None;
      Label (Some (u "Header.TLabel")) (u "Items") None None ].

(** The body of the loop of [_update_ui] over the categories. *)
Definition render_category (h : list GameItem) (kv : str * list BuildRow) (_ : unit)
  : M AramBuildApp unit :=
  let '(category, rows) := kv in
  tab_frame category ;;;
  tab_add category header_frame ;;;
  if negb (truthy rows) then tab_add category (Label None (u "No data found.") None None)
  else
    for_in rows
      (fun row_data i =>
         w <- render_row h row_data i ;; tab_add category w ;;; ret (S i)) 0 ;;;
    ret tt.

Definition update_ui (h : list GameItem) (results : list (str * list BuildRow))
  : M AramBuildApp unit :=
  for_in results (render_category h) tt ;;;
  status_lbl_config (u "Success") (u "green") ;;;
  fetch_btn_config NORMAL.

(** Running the callback that the worker scheduled. *)
Definition run_callback (h : list GameItem) (cb : callback) : M AramBuildApp unit :=
  match cb with
  | _handle_error => handle_error
  | _handle_not_found => handle_not_found
  | _update_ui results => update_ui h results
  end.

(** *** Views of the program used to state its properties *)

(** The badge of an image, as [_extract_item_details] looks it up. *)
Definition count_badge (img_tag : PageElement) : option PageElement :=
  match find_parent img_tag (fun e => named (u "div") e && with_class (u "relative") e) with
  | Some parent_div =>
      find parent_div (fun e => named (u "div") e && with_class (u "absolute") e)
  | None => None
  end.

(** The number a text of ASCII digits denotes. *)
Definition decimal_value (digits : str) : Z :=
  fold_left (fun acc c => (10 * acc + (Z.of_N c - 48))%Z) digits 0%Z.

Definition is_digit (c : char) : bool := N.leb 48 c && N.leb c 57.

(** The object [_extract_item_details] builds for an image. *)
Definition item_count (img_tag : PageElement) : Z :=
  match count_badge img_tag with
  | Some count_div =>
      match int (get_text count_div true) with
      | Val n => n
      | Raise _ => 1%Z
      end
  | None => 1%Z
  end.

Definition item_value (img_tag : PageElement) : GameItem :=
  {| name := get_or img_tag (u "alt") (u "Unknown Item");
     image_url := get_or img_tag (u "src") (u "");
     count := item_count img_tag;
     image_data := None |}.

(** The data cells of a row, and the images of its first cell that
    become items. *)
Definition row_cells (row : PageElement) : list PageElement :=
  find_all row (named (u "td")).

Definition row_kept (row : PageElement) : bool := Nat.leb 3 (length (row_cells row)).

Definition has_src (img : PageElement) : bool := truthy_opt (get img (u "src")).

Definition row_images (row : PageElement) : list PageElement :=
  match row_cells row with
  | item_container :: _ => List.filter has_src (find_all item_container (named (u "img")))
  | [] => []
  end.

(** The statistic read in a cell: the stripped text of the first
    sub-element of the given name, else the sentinel. *)
Definition cell_stat (cell : option PageElement) (sub : str) : str :=
  match cell with
  | Some c =>
      match find c (named sub) with
      | Some e => get_text e true
      | None => u "N/A"
      end
  | None => u "N/A"
  end.

(** The row object built for a kept row whose items are allocated from
    reference [base] on. *)
Definition row_at (base : nat) (row : PageElement) : BuildRow :=
  {| items := seq base (length (row_images row));
     win_rate := cell_stat (row_cells row !! 2) (u "strong");
     pick_rate := cell_stat (row_cells row !! 1) (u "strong");
     games := cell_stat (row_cells row !! 1) (u "span") |}.

Fixpoint rows_from (base : nat) (rows : list PageElement) : list BuildRow :=
  match rows with
  | [] => []
  | row :: rows' =>
      if row_kept row
      then row_at base row :: rows_from (base + length (row_images row)) rows'
      else rows_from base rows'
  end.

(** The items a run over [rows] puts in the store, in order. *)
Definition rows_items (rows : list PageElement) : list GameItem :=
  flat_map (fun row => if row_kept row then List.map item_value (row_images row) else [])
    rows.

(** The rows of the table the extractor selects for a header text. *)
Definition table_rows (soup : PageElement) (header_text : str) : list PageElement :=
  match find soup (header_matches header_text) with
  | None => []
  | Some header =>
      match find_parent header (named (u "table")) with
      | None => []
      | Some table =>
          match find table (named (u "tbody")) with
          | None => []
          | Some tbody => find_all tbody (named (u "tr"))
          end
      end
  end.

(** The values of a kept row: its items and its three statistics. *)
Definition row_pure (row : PageElement) : list GameItem * str * str * str :=
  (List.map item_value (row_images row),
   cell_stat (row_cells row !! 2) (u "strong"),
   cell_stat (row_cells row !! 1) (u "strong"),
   cell_stat (row_cells row !! 1) (u "span")).

(** Rows by value in a store: the items dereferenced, then win rate,
    pick rate and games.  This is what [==] on two lists of [BuildRow]
    compares; it is defined when every reference is in the store. *)
Fixpoint deref_all (h : list GameItem) (rs : list ref) : option (list GameItem) :=
  match rs with
  | [] => Some []
  | r :: rs' =>
      match h !! r, deref_all h rs' with
      | Some g, Some gs => Some (g :: gs)
      | _, _ => None
      end
  end.

Definition row_value (h : list GameItem) (row : BuildRow)
  : option (list GameItem * str * str * str) :=
  match deref_all h (items row) with
  | Some gs => Some (gs, win_rate row, pick_rate row, games row)
  | None => None
  end.

Fixpoint rows_value (h : list GameItem) (rows : list BuildRow)
  : option (list (list GameItem * str * str * str)) :=
  match rows with
  | [] => Some []
  | row :: rows' =>
      match row_value h row, rows_value h rows' with
      | Some v, Some vs => Some (v :: vs)
      | _, _ => None
      end
  end.

(** The same without the image bytes, which the pre-fetch fills in. *)
Definition without_image (g : GameItem) : GameItem :=
  {| name := name g; image_url := image_url g; count := count g; image_data := None |}.

Definition shape (v : list GameItem * str * str * str) : list GameItem * str * str * str :=
  let '(gs, w, p, g) := v in (without_image <$> gs, w, p, g).

Definition rows_shape (h : list GameItem) (rows : list BuildRow)
  : option (list (list GameItem * str * str * str)) :=
  match rows_value h rows with
  | Some vs => Some (shape <$> vs)
  | None => None
  end.

(** The address an image is requested from. *)
Definition request_url (url : str) : str :=
  if startswith url (u "//") then u "https:" ++ url else url.

(** The number of objects a computation adds to the store. *)
Definition allocated {A} (m : M St A) (st : St) : nat :=
  length (heap (snd (m st))) - length (heap st).

(** [results[key]] for the dictionary [get_all_data] returns. *)
Definition results_get (results : list (str * list BuildRow)) (key : str)
  : option (list BuildRow) :=
  match List.find (fun kv => str_eqb (fst kv) key) results with
  | Some kv => Some (snd kv)
  | None => None
  end.

(** [s.isascii()] *)
Definition isascii (s : str) : bool := forallb (fun c => N.ltb c 128) s.

(** An ASCII letter, of either case. *)
Definition is_ascii_letter (c : char) : bool :=
  (N.leb 65 c && N.leb c 90) || (N.leb 97 c && N.leb c 122).

(** What [fetch_image_bytes] makes of the outcome of its request. *)
Definition downloaded (r : result Response) : option bytes :=
  match r with
  | Val resp => if Z.eqb (status_code resp) 200 then Some (content resp) else None
  | Raise _ => None
  end.

(** An item with its image bytes replaced. *)
Definition with_image (g : GameItem) (d : option bytes) : GameItem :=
  {| name := name g; image_url := image_url g; count := count g; image_data := d |}.

(** A log entry is a warning about a download. *)
Definition is_download_warning (entry : log_level * log_message) : Prop :=
  exists url e, entry = (WARNING, Could_not_download url e).

(** The item behind a reference holds what a download of its own address
    gives, on a network described by [respond]. *)
Definition holds_download (respond : str -> Z -> result Response)
    (h : list GameItem) (r : ref) : Prop :=
  exists g, h !! r = Some g
            /\ image_data g = downloaded (respond (request_url (image_url g)) 5%Z).

(** The network answers by address: what a request returns depends on
    the address and the time-out only. *)
Definition network_answers_by_address (respond : str -> Z -> result Response) : Prop :=
  forall url t w, fst (session_get url t w) = respond url t.

(** What the pre-fetch keeps: the items apart from their image bytes
    ([E]), and the first [n] objects of the store ([H0]). *)
Definition prefetch_keeps (E H0 : list GameItem) (n : nat) (st : St) : Prop :=
  without_image <$> heap st = E /\ take n (heap st) = H0.

(** The items it may visit: beyond the first [n], with an address. *)
Definition prefetch_may_visit (E : list GameItem) (n : nat) (r : ref) : Prop :=
  n <= r /\ exists g0, E !! r = Some g0 /\ truthy (image_url g0) = true.

(** How the state moves: the log grows by download warnings, and on a
    network that answers by address the items that hold their download
    keep holding it. *)
Definition prefetch_moves (respond : str -> Z -> result Response) (a b : St) : Prop :=
  (exists ws, log b = log a ++ ws /\ Forall is_download_warning ws)
  /\ (network_answers_by_address respond ->
      forall r, holds_download respond (heap a) r -> holds_download respond (heap b) r).

(** The photos a widget shows, and those on display in the tabs. *)
Fixpoint widget_images (w : widget) : list Photo :=
  match w with
  | Frame _ _ children => flat_map widget_images children
  | Label _ _ _ _ => []
  | ImageLabel image _ => [image]
  end.

Definition displayed (a : AramBuildApp) : list Photo :=
  flat_map (fun kv => flat_map widget_images (snd kv)) (tabs a).

(** Every photo on display is referenced by [photo_refs] (Tk shows a
    photo only as long as the program holds a reference to it). *)
Definition photos_kept (a : AramBuildApp) : Prop :=
  forall p, In p (displayed a) -> In p (photo_refs a).

(** The window with more photos referenced. *)
Definition add_photos (ps : list Photo) (a : AramBuildApp) : AramBuildApp :=
  {| champ_var := champ_var a; fetch_btn := fetch_btn a; status_lbl := status_lbl a;
     photo_refs := photo_refs a ++ ps; tabs := tabs a; dialogs := dialogs a |}.

(** The window after more widgets were put in its tabs: the entry, the
    button, the status and the dialogs are as before, the tabs are the
    same with their earlier children first, and photos stay referenced. *)
Definition app_extends (a a' : AramBuildApp) : Prop :=
  champ_var a' = champ_var a
  /\ fetch_btn a' = fetch_btn a
  /\ status_lbl a' = status_lbl a
  /\ dialogs a' = dialogs a
  /\ List.map fst (tabs a') = List.map fst (tabs a)
  /\ (forall category ws,
        tabs_get category (tabs a) = Some ws ->
        exists added, tabs_get category (tabs a') = Some (ws ++ added))
  /\ (photos_kept a -> photos_kept a').


(** What a tab shows for a row: the three statistics on the colour of
    the row, then one wrapper per item. *)
Definition row_shown (row_data : BuildRow) (w : widget) : Prop :=
  exists bg_color wrappers,
    w = Frame None None
          [ Label None (win_rate row_data) (Some bg_color) (Some (u "blue"));
            Label None (pick_rate row_data) (Some bg_color) None;
            Label None (games row_data) (Some bg_color) (Some (u "gray"));
            Frame None (Some bg_color) wrappers ]
    /\ length wrappers = length (items row_data).

(** What [_update_ui] puts in a tab under the header: the notice for an
    empty category, else the rows in order. *)
Definition rows_shown (rows : list BuildRow) (body : list widget) : Prop :=
  match rows with
  | [] => body = [Label None (u "No data found.") None None]
  | _ :: _ => Forall2 row_shown rows body
  end.

(** ** Properties *)

(** *** Strings *)

Lemma char_eqb_eq (a b : char) : char_eqb a b = true <-> a = b.
Proof. unfold char_eqb. apply N.eqb_eq. Qed.

Lemma str_eqb_eq (a b : str) : str_eqb a b = true <-> a = b.
Proof.
  revert b. induction a as [|c a IH]; intros [|d b]; simpl; try (split; congruence).
  rewrite andb_true_iff, char_eqb_eq, IH. split; [intros [-> ->]|intros [= -> ->]]; auto.
Qed.

Lemma startswith_spec (s p : str) : startswith s p = true <-> exists r, s = p ++ r.
Proof.
  revert s. induction p as [|c p IH]; intros s; simpl.
  - split; [intros _; exists s; reflexivity | reflexivity].
  - destruct s as [|d s].
    + split; [discriminate|intros [r [=]]].
    + rewrite andb_true_iff, char_eqb_eq, IH. split.
      * intros [-> [r ->]]. eauto.
      * intros [r [= -> ->]]. eauto.
Qed.

Lemma contains_spec (s sub : str) :
  contains s sub = true <-> exists l r, s = l ++ sub ++ r.
Proof.
  induction s as [|d s IH]; simpl.
  - rewrite orb_false_r, startswith_spec. split.
    + intros [r ->]. exists [], r. reflexivity.
    + intros (l & r & H). destruct l; simpl in H; [eauto|discriminate].
  - rewrite orb_true_iff, startswith_spec, IH. split.
    + intros [[r ->]|(l & r & ->)].
      * exists [], r. reflexivity.
      * exists (d :: l), r. reflexivity.
    + intros (l & r & H). destruct l as [|d' l]; simpl in H.
      * left. eauto.
      * injection H as -> ->. right. eauto.
Qed.

Lemma sub_non_a_z_only (s : str) : Forall (fun c => is_a_z c = true) (sub_non_a_z s).
Proof.
  unfold sub_non_a_z. apply List.Forall_forall. intros c Hc.
  apply filter_In in Hc. tauto.
Qed.

(** *** The integer parser *)

Lemma int_raises_ValueError (s : str) (e : exception) :
  int s = Raise e -> e = ValueError.
Proof.
  unfold int. intros H. repeat case_match; congruence.
Qed.

Lemma is_digit_cases (c : char) :
  is_digit c = true ->
  c = 48%N \/ c = 49%N \/ c = 50%N \/ c = 51%N \/ c = 52%N \/
  c = 53%N \/ c = 54%N \/ c = 55%N \/ c = 56%N \/ c = 57%N.
Proof.
  unfold is_digit, char in *. rewrite andb_true_iff, !N.leb_le. lia.
Qed.

Lemma digit_value_digit (c : char) :
  is_digit c = true -> digit_value c = Some (Z.of_N c - 48)%Z /\ N.eqb c 95 = false.
Proof.
  intros H. unfold digit_value. unfold is_digit in H. rewrite H. split; [reflexivity|].
  apply N.eqb_neq. apply andb_true_iff in H. rewrite !N.leb_le in H. unfold char in *. lia.
Qed.

Lemma scan_digits_digits (ds : str) :
  Forall (fun c => is_digit c = true) ds ->
  forall prev acc n,
    N.eqb prev 95 = false ->
    scan_digits ds prev acc n
    = Some (fold_left (fun a c => (10 * a + (Z.of_N c - 48))%Z) ds acc, n + length ds, []).
Proof.
  induction 1 as [|c ds Hc _ IH]; intros prev acc n Hprev; simpl.
  - rewrite Hprev. replace (n + 0) with n by lia. reflexivity.
  - destruct (digit_value_digit c Hc) as [-> ->].
    rewrite IH by (apply (digit_value_digit c Hc)).
    replace (S n + length ds) with (n + S (length ds)) by lia. reflexivity.
Qed.

Lemma int_digits (ds : str) :
  ds <> [] ->
  Forall (fun c => is_digit c = true) ds ->
  int_max_str_digits = 0 \/ length ds <= int_max_str_digits ->
  int ds = Val (decimal_value ds).
Proof.
  intros Hne Hds Hlim. unfold int, to_ascii_for_int.
  assert (Hascii : forallb (fun c => N.ltb c 128) ds = true).
  { apply forallb_forall. intros c Hc. rewrite List.Forall_forall in Hds.
    specialize (Hds c Hc). unfold is_digit in Hds.
    apply andb_true_iff in Hds. rewrite !N.leb_le in Hds. apply N.ltb_lt.
    unfold char in *. lia. }
  rewrite Hascii. destruct ds as [|c ds]; [congruence|].
  inversion Hds as [|? ? Hc Hds']; subst.
  pose proof (scan_digits_digits (c :: ds) Hds 0%N 0%Z 0 eq_refl) as Hscan.
  destruct (is_digit_cases c Hc) as [->|[->|[->|[->|[->|[->|[->|[->|[->| ->]]]]]]]]];
    cbn [lstrip_with Py_ISSPACE N.leb N.eqb N.compare Pos.compare Pos.compare_cont andb orb Pos.eqb];
    rewrite Hscan; cbn [length Nat.add Nat.eqb forallb];
    (replace (Nat.ltb 0 int_max_str_digits && Nat.ltb int_max_str_digits (S (length ds)))
       with false
       by (symmetry; apply andb_false_iff; rewrite !Nat.ltb_ge; simpl in Hlim; lia));
    reflexivity.
Qed.

(** *** Searching a list *)

Lemma find_first {A} (p : A -> bool) (l : list A) (x : A) :
  List.find p l = Some x <->
  exists before after,
    l = before ++ x :: after /\ p x = true /\ Forall (fun y => p y = false) before.
Proof.
  induction l as [|a l IH]; simpl.
  - split; [discriminate|]. intros (b & a & H & _). destruct b; discriminate.
  - destruct (p a) eqn:Hpa.
    + split.
      * intros [= ->]. exists [], l. auto.
      * intros (b & af & H & Hx & Hb). destruct b as [|b0 b]; simpl in H.
        -- congruence.
        -- injection H as -> ->. inversion Hb; congruence.
    + rewrite IH. split.
      * intros (b & af & -> & Hx & Hb). exists (a :: b), af. auto.
      * intros (b & af & H & Hx & Hb). destruct b as [|b0 b]; simpl in H.
        -- congruence.
        -- injection H as -> ->. inversion Hb; subst. eauto.
Qed.

(** *** Running the store operations *)

Lemma set_heap_same (st : St) : set_heap (heap st ++ []) st = st.
Proof. destruct st. unfold set_heap. simpl. rewrite app_nil_r. reflexivity. Qed.

Lemma _extract_item_details_run (img_tag : PageElement) (st : St) :
  _extract_item_details img_tag st
  = (Val (length (heap st)), set_heap (heap st ++ [item_value img_tag]) st).
Proof.
  unfold _extract_item_details, item_value, item_count, count_badge.
  unfold bind, try_except, lift, ret, new_GameItem.
  destruct (find_parent img_tag _) as [parent_div|]; [|reflexivity].
  destruct (find parent_div _) as [count_div|]; [|reflexivity].
  destruct (int (get_text count_div true)) as [n|e] eqn:Hint; [reflexivity|].
  rewrite (int_raises_ValueError _ _ Hint). reflexivity.
Qed.

Lemma items_list_run (images : list PageElement) (st : St) :
  list_comprehension images (fun img => truthy_opt (get img (u "src")))
    _extract_item_details st
  = (Val (seq (length (heap st)) (length (List.filter has_src images))),
     set_heap (heap st ++ List.map item_value (List.filter has_src images)) st).
Proof.
  change (fun img => truthy_opt (get img (u "src"))) with has_src.
  revert st. induction images as [|img images IH]; intros st; simpl.
  - unfold ret. rewrite set_heap_same. reflexivity.
  - destruct (has_src img); [|apply IH].
    unfold bind. rewrite _extract_item_details_run, IH. unfold ret. simpl.
    rewrite length_app, <- app_assoc. simpl.
    replace (length (heap st) + 1) with (S (length (heap st))) by lia. reflexivity.
Qed.

Lemma extract_row_run (row : PageElement) (data : list BuildRow) (st : St) :
  extract_row row data st
  = if row_kept row
    then (Val (data ++ [row_at (length (heap st)) row]),
          set_heap (heap st ++ List.map item_value (row_images row)) st)
    else (Val data, st).
Proof.
  unfold extract_row, row_kept, row_at, row_images, row_cells.
  destruct (find_all row (named (u "td"))) as [|c0 [|c1 [|c2 cols]]]; try reflexivity.
  cbn [truthy negb orb length Nat.ltb Nat.leb].
  unfold bind, index, ret. cbn [lookup list_lookup].
  rewrite items_list_run. reflexivity.
Qed.

Lemma for_in_rows_run (rows : list PageElement) (data : list BuildRow) (st : St) :
  for_in rows extract_row data st
  = (Val (data ++ rows_from (length (heap st)) rows),
     set_heap (heap st ++ rows_items rows) st).
Proof.
  revert data st. induction rows as [|row rows IH]; intros data st; simpl.
  - unfold ret, rows_items. simpl. rewrite set_heap_same, app_nil_r. reflexivity.
  - unfold bind. rewrite extract_row_run. unfold rows_items. simpl.
    destruct (row_kept row).
    + rewrite IH. simpl. rewrite length_app, length_map, <- !app_assoc. reflexivity.
    + rewrite IH. reflexivity.
Qed.

Lemma _extract_table_by_header_run (soup : PageElement) (header_text : str) (st : St) :
  _extract_table_by_header soup header_text st
  = (Val (rows_from (length (heap st)) (table_rows soup header_text)),
     set_heap (heap st ++ rows_items (table_rows soup header_text)) st).
Proof.
  unfold _extract_table_by_header, table_rows.
  destruct (find soup _) as [header|];
    [|unfold ret; simpl; rewrite set_heap_same; reflexivity].
  destruct (find_parent header _) as [table|];
    [|unfold ret; simpl; rewrite set_heap_same; reflexivity].
  destruct (find table _) as [tbody|];
    [|unfold ret; simpl; rewrite set_heap_same; reflexivity].
  apply for_in_rows_run.
Qed.

(** *** Rows by value *)

Lemma deref_all_block (H vals X : list GameItem) :
  deref_all (H ++ vals ++ X) (seq (length H) (length vals)) = Some vals.
Proof.
  revert H. induction vals as [|v vals IH]; intros H; simpl; [reflexivity|].
  rewrite list_lookup_middle by reflexivity.
  specialize (IH (H ++ [v])). rewrite <- app_assoc, length_app in IH. simpl in IH.
  replace (length H + 1) with (S (length H)) in IH by lia.
  rewrite IH. reflexivity.
Qed.

Lemma rows_value_block (rows : list PageElement) (H X : list GameItem) :
  rows_value (H ++ rows_items rows ++ X) (rows_from (length H) rows)
  = Some (List.map row_pure (List.filter row_kept rows)).
Proof.
  revert H. induction rows as [|row rows IH]; intros H; simpl; [reflexivity|].
  unfold rows_items. simpl. fold (rows_items rows).
  destruct (row_kept row); simpl.
  - unfold row_value, row_at. simpl.
    rewrite <- (length_map item_value (row_images row)).
    rewrite <- (app_assoc (List.map item_value (row_images row))).
    rewrite deref_all_block.
    specialize (IH (H ++ List.map item_value (row_images row))).
    rewrite <- app_assoc, length_app in IH. rewrite IH.
    unfold row_pure. reflexivity.
  - apply IH.
Qed.

Lemma deref_all_without_image (h h' : list GameItem) (rs : list ref) (gs : list GameItem) :
  without_image <$> h' = without_image <$> h ->
  deref_all h rs = Some gs ->
  exists gs', deref_all h' rs = Some gs' /\ without_image <$> gs' = without_image <$> gs.
Proof.
  intros Hh. revert gs. induction rs as [|r rs IH]; intros gs; cbn [deref_all].
  - intros [= <-]. eauto.
  - destruct (h !! r) as [g|] eqn:Hr; [|discriminate].
    destruct (deref_all h rs) as [gs0|]; [|discriminate]. intros [= <-].
    destruct (IH gs0 eq_refl) as (gs' & -> & Hgs').
    assert (Hr' : (without_image <$> h') !! r = Some (without_image g)).
    { rewrite Hh, list_lookup_fmap, Hr. reflexivity. }
    rewrite list_lookup_fmap in Hr'. destruct (h' !! r) as [g'|]; [|discriminate].
    simpl in Hr'. apply (inj Some) in Hr'. rename Hr' into Hg. exists (g' :: gs'). split; [reflexivity|].
    rewrite !fmap_cons, Hg, Hgs'. reflexivity.
Qed.

Lemma rows_shape_without_image (h h' : list GameItem) (rows : list BuildRow) vs :
  without_image <$> h' = without_image <$> h ->
  rows_shape h rows = Some vs ->
  rows_shape h' rows = Some vs.
Proof.
  intros Hh. unfold rows_shape. revert vs.
  induction rows as [|row rows IH]; intros vs; simpl; [auto|].
  unfold row_value.
  destruct (deref_all h (items row)) as [gs|] eqn:Hgs; [|discriminate].
  destruct (rows_value h rows) as [vs0|]; [|discriminate].
  intros [= <-].
  destruct (deref_all_without_image h h' _ _ Hh Hgs) as (gs' & -> & Hgs').
  specialize (IH _ eq_refl). destruct (rows_value h' rows) as [vs1|]; [|discriminate].
  injection IH as IH. rewrite !fmap_cons, IH. unfold shape at 1 3. rewrite Hgs'. reflexivity.
Qed.

Lemma deref_all_valid (h : list GameItem) (rs : list ref) (gs : list GameItem) :
  deref_all h rs = Some gs -> Forall (fun r => r < length h) rs.
Proof.
  revert gs. induction rs as [|r rs IH]; intros gs; cbn [deref_all]; [constructor|].
  destruct (h !! r) as [g|] eqn:Hr; [|discriminate].
  destruct (deref_all h rs) as [gs0|]; [|discriminate]. intros _.
  constructor; [|eauto]. eapply lookup_lt_Some; eauto.
Qed.

Lemma rows_value_valid (h : list GameItem) (rows : list BuildRow) vs :
  rows_value h rows = Some vs ->
  Forall (fun r => r < length h) (flat_map items rows).
Proof.
  revert vs. induction rows as [|row rows IH]; intros vs; simpl; [constructor|].
  unfold row_value.
  destruct (deref_all h (items row)) as [gs|] eqn:Hgs; [|discriminate].
  destruct (rows_value h rows) as [vs0|]; [|discriminate]. intros _.
  apply Forall_app. split; [eapply deref_all_valid; eauto|eauto].
Qed.

(** *** Running the fetchers *)

Lemma fetch_image_bytes_run (url : str) (st : St) :
  fetch_image_bytes url st
  = match session_get (request_url url) 5 (net st) with
    | (Val resp, w) =>
        (Val (if Z.eqb (status_code resp) 200 then Some (content resp) else None),
         set_net w st)
    | (Raise e, w) =>
        (Val None,
         set_log (log st ++ [(WARNING, Could_not_download (request_url url) e)])
           (set_net w st))
    end.
Proof.
  unfold fetch_image_bytes, request_url, try_except, bind, session_get_, ret, logger.
  destruct (session_get _ 5 (net st)) as [[resp|e] w].
  - destruct (Z.eqb (status_code resp) 200); reflexivity.
  - reflexivity.
Qed.

Lemma fetch_image_bytes_heap (url : str) (st : St) :
  exists o st', fetch_image_bytes url st = (Val o, st') /\ heap st' = heap st.
Proof.
  rewrite fetch_image_bytes_run.
  destruct (session_get (request_url url) 5 (net st)) as [[resp|e] w]; eauto.
Qed.

Lemma fetch_page_404 (url : str) (st : St) (resp : Response) (w : World) :
  session_get url 10 (net st) = (Val resp, w) ->
  status_code resp = 404%Z ->
  fetch_page url st
  = (Val None, set_net w (set_log (log st ++ [(INFO, Requesting url)]) st)).
Proof.
  intros Hget H404.
  unfold fetch_page, try_except, bind, session_get_, ret, logger. simpl.
  rewrite Hget, H404. reflexivity.
Qed.

(** The two neighbouring paths of the worker: a request that raises a
    [RequestException] is reported as a connection error, after an error
    in the log; a page that is fetched and parsed but names neither
    "Core Builds" nor "Starter Items" is reported as not found. *)
Lemma worker_thread_transfer_failure (url : str) (st : St) (e : exception) (w : World) :
  session_get url 10 (net st) = (Raise e, w) ->
  is_RequestException e = true ->
  exists st',
    _worker_thread url st = (Val _handle_error, st')
    /\ log st' = log st ++ [(INFO, Requesting url); (ERROR, Failed_to_fetch url e)].
Proof.
  intros Hget He.
  unfold _worker_thread, fetch_page, try_except, bind, session_get_, ret, logger.
  cbn [net set_log]. rewrite Hget, He. eexists. split; [reflexivity|].
  cbn [log set_log set_net]. rewrite <- app_assoc. reflexivity.
Qed.

Lemma worker_thread_page_without_markers
    (url : str) (st : St) (resp : Response) (w : World) (soup : PageElement) :
  session_get url 10 (net st) = (Val resp, w) ->
  status_code resp = 200%Z ->
  html_parser (text resp) = Val soup ->
  contains (get_text soup false) (u "Core Builds") = false ->
  contains (get_text soup false) (u "Starter Items") = false ->
  exists st', _worker_thread url st = (Val _handle_not_found, st').
Proof.
  intros Hget H200 Hparse Hcore Hstarter.
  unfold _worker_thread, fetch_page, try_except, bind, session_get_, ret, logger,
    raise_for_status, lift.
  cbn [net set_log]. rewrite Hget, H200, Hparse. cbn -[u].
  rewrite Hcore, Hstarter. eexists. reflexivity.
Qed.

(** *** The pre-fetch loop *)

Lemma for_in_unit_inv {A} (P : St -> Prop) (Q : A -> Prop) (xs : list A)
    (body : A -> unit -> M St unit) :
  (forall x st, Q x -> P st -> exists st', body x tt st = (Val tt, st') /\ P st') ->
  Forall Q xs ->
  forall st, P st -> exists st', for_in xs body tt st = (Val tt, st') /\ P st'.
Proof.
  intros Hbody. induction 1 as [|x xs Hx _ IH]; intros st HP; simpl.
  - exists st. auto.
  - destruct (Hbody x st Hx HP) as (st1 & Hrun & HP1).
    unfold bind. rewrite Hrun. apply IH, HP1.
Qed.

Lemma prefetch_item_inv (E : list GameItem) (item : ref) (st : St) :
  item < length E ->
  without_image <$> heap st = E ->
  exists st', prefetch_item item tt st = (Val tt, st') /\ without_image <$> heap st' = E.
Proof.
  intros Hlt HE. unfold prefetch_item, bind, deref.
  assert (Hlen : item < length (heap st)) by (rewrite <- HE, length_fmap in Hlt; exact Hlt).
  destruct (lookup_lt_is_Some_2 _ _ Hlen) as [g Hg]. rewrite Hg.
  destruct (truthy (image_url g)); [|exists st; auto].
  destruct (fetch_image_bytes_heap (image_url g) st) as (d & st1 & -> & Hheap).
  unfold set_image_data. rewrite Hheap, Hg. eexists. split; [reflexivity|].
  simpl. rewrite list_fmap_insert. rewrite <- HE. apply list_insert_id.
  rewrite list_lookup_fmap, Hg. reflexivity.
Qed.

Lemma prefetch_rows_inv (E : list GameItem) (rows : list BuildRow) (st : St) :
  Forall (fun r => r < length E) (flat_map items rows) ->
  without_image <$> heap st = E ->
  exists st',
    for_in rows (fun row _ => for_in (items row) prefetch_item tt) tt st = (Val tt, st')
    /\ without_image <$> heap st' = E.
Proof.
  intros Hvalid. revert st.
  apply (for_in_unit_inv (fun st => without_image <$> heap st = E)
           (fun row => Forall (fun r => r < length E) (items row))).
  - intros row st0 Hrow. revert st0.
    apply (for_in_unit_inv (fun st => without_image <$> heap st = E)
             (fun r => r < length E)); auto.
    intros r st1 Hr HP1. apply prefetch_item_inv; auto.
  - apply List.Forall_forall. intros row Hin. apply List.Forall_forall. intros r Hr.
    rewrite List.Forall_forall in Hvalid. apply Hvalid. apply in_flat_map. eauto.
Qed.

(** *** Running the aggregator *)

Lemma rows_value_at (h : list GameItem) (rows : list PageElement) (H X : list GameItem) :
  h = H ++ rows_items rows ++ X ->
  rows_value h (rows_from (length H) rows)
  = Some (List.map row_pure (List.filter row_kept rows)).
Proof. intros ->. apply rows_value_block. Qed.

Lemma get_all_data_run (soup : PageElement) (st : St) :
  let T := table_rows soup in
  let h1 := heap st ++ rows_items (T (u "Core Builds")) in
  let h2 := h1 ++ rows_items (T (u "Starter Items")) in
  let h3 := h2 ++ rows_items (T (u "Boots")) in
  let h4 := h3 ++ rows_items (T (u "Skill")) in
  exists st',
    get_all_data soup st
    = (Val [ (u "Core Builds", rows_from (length (heap st)) (T (u "Core Builds")));
             (u "Starter Items", rows_from (length h1) (T (u "Starter Items")));
             (u "Boots", rows_from (length h2) (T (u "Boots")));
             (u "Skills", rows_from (length h3) (T (u "Skill"))) ],
       st')
    /\ without_image <$> heap st' = without_image <$> h4.
Proof.
  intros T h1 h2 h3 h4. unfold get_all_data, bind.
  rewrite _extract_table_by_header_run. fold T h1.
  rewrite _extract_table_by_header_run. cbn [heap set_heap]. fold T h2.
  rewrite _extract_table_by_header_run. cbn [heap set_heap]. fold T h3.
  rewrite _extract_table_by_header_run. cbn [heap set_heap]. fold T h4.
  match goal with
  | |- context [for_in ?rows ?body tt ?s] =>
      destruct (prefetch_rows_inv (without_image <$> h4) rows s) as (st' & Hrun & Hinv)
  end.
  - rewrite length_fmap. cbn [flat_map snd]. rewrite app_nil_r, !flat_map_app.
    repeat (apply Forall_app; split).
    + eapply rows_value_valid. apply (rows_value_at h4 _ (heap st) (rows_items (T (u "Starter Items")) ++ rows_items (T (u "Boots")) ++ rows_items (T (u "Skill")))).
      unfold h4, h3, h2, h1. rewrite <- !app_assoc. reflexivity.
    + eapply rows_value_valid. apply (rows_value_at h4 _ h1 (rows_items (T (u "Boots")) ++ rows_items (T (u "Skill")))).
      unfold h4, h3, h2. rewrite <- !app_assoc. reflexivity.
    + eapply rows_value_valid. apply (rows_value_at h4 _ h2 (rows_items (T (u "Skill")))).
      unfold h4, h3. rewrite <- !app_assoc. reflexivity.
    + eapply rows_value_valid. apply (rows_value_at h4 _ h3 []).
      unfold h4. rewrite app_nil_r. reflexivity.
  - reflexivity.
  - exists st'. rewrite Hrun. auto.
Qed.

(** *** Where the extracted items lie in the store *)

Lemma rows_items_cons (row : PageElement) (rows : list PageElement) :
  rows_items (row :: rows)
  = (if row_kept row then List.map item_value (row_images row) else []) ++ rows_items rows.
Proof. reflexivity. Qed.

Lemma rows_from_range (rows : list PageElement) (base : nat) :
  Forall (fun r => base <= r < base + length (rows_items rows))
    (flat_map items (rows_from base rows)).
Proof.
  revert base. induction rows as [|row rows IH]; intros base; cbn [rows_from].
  - constructor.
  - rewrite rows_items_cons, length_app. destruct (row_kept row).
    + cbn [flat_map]. apply Forall_app. split.
      * unfold row_at. cbn [items]. apply Forall_seq. intros i Hi.
        rewrite length_map. lia.
      * eapply Forall_impl; [apply IH|]. intros r Hr. cbn beta in Hr.
        rewrite length_map. lia.
    + eapply Forall_impl; [apply IH|]. intros r Hr. cbn beta in Hr. simpl. lia.
Qed.

Lemma item_value_has_src (img : PageElement) :
  has_src img = true -> truthy (image_url (item_value img)) = true.
Proof.
  unfold has_src, item_value, get_or. cbn [image_url].
  destruct (get img (u "src")) as [v|]; [|discriminate]. auto.
Qed.

Lemma rows_items_have_src (rows : list PageElement) :
  Forall (fun g => truthy (image_url g) = true) (rows_items rows).
Proof.
  induction rows as [|row rows IH]; [constructor|].
  rewrite rows_items_cons. apply Forall_app. split; [|exact IH].
  destruct (row_kept row); [|constructor].
  unfold row_images. destruct (row_cells row) as [|c0 cols]; [constructor|].
  apply List.Forall_forall. intros g Hg. apply in_map_iff in Hg.
  destruct Hg as (img & <- & Himg). apply filter_In in Himg.
  apply item_value_has_src, Himg.
Qed.

Lemma lookup_in_block (P : GameItem -> Prop) (H R : list GameItem) (r : nat) :
  Forall P R ->
  length H <= r < length H + length R ->
  exists g, (H ++ R) !! r = Some g /\ P g.
Proof.
  intros HP Hr. rewrite lookup_app_r by lia.
  destruct (lookup_lt_is_Some_2 R (r - length H)) as [g Hg]; [lia|].
  exists g. split; [exact Hg|]. eapply Forall_lookup_1; eauto.
Qed.

Lemma lookup_without_image (h h' : list GameItem) (r : nat) (g : GameItem) :
  without_image <$> h' = without_image <$> h ->
  h !! r = Some g ->
  exists g', h' !! r = Some g' /\ image_url g' = image_url g.
Proof.
  intros Hh Hr.
  assert (H : (without_image <$> h') !! r = Some (without_image g))
    by (rewrite Hh, list_lookup_fmap, Hr; reflexivity).
  rewrite list_lookup_fmap in H. destruct (h' !! r) as [g'|]; [|discriminate].
  exists g'. split; [reflexivity|]. simpl in H. apply (inj Some) in H.
  apply (f_equal image_url) in H. exact H.
Qed.

Lemma truthy_nonempty {A} (l : list A) : truthy l = true -> l <> [].
Proof. destruct l; [discriminate|discriminate]. Qed.

(** *** The claims of the specification *)

(** C4.  For every input, [normalize_champion_name] returns the
    lowered input with every code point outside a-z removed, so the
    result holds only the letters a to z; the four names of the
    docstring and the empty text come out as stated.  The function is a
    total function of its argument alone. *)
Theorem normalize_champion_name_a_z :
  (forall name : str,
      Forall (fun c => (97 <= c <= 122)%N) (normalize_champion_name name)) /\
  (forall name : str,
      normalize_champion_name name = List.filter is_a_z (lower name)) /\
  normalize_champion_name (u "Vel'Koz") = u "velkoz" /\
  normalize_champion_name (u "Dr. Mundo") = u "drmundo" /\
  normalize_champion_name (u "Lee Sin") = u "leesin" /\
  normalize_champion_name (u "Nunu & Willump") = u "nunuwillump" /\
  normalize_champion_name (u "") = u "".
Proof.
  split; [|split; [reflexivity|repeat split; reflexivity]].
  intros name. unfold normalize_champion_name.
  eapply Forall_impl; [apply sub_non_a_z_only|].
  intros c Hc. unfold is_a_z in Hc. apply andb_true_iff in Hc.
  rewrite !N.leb_le in Hc. exact Hc.
Qed.

(** C7.  [fetch_image_bytes] requests the address with [https:] put in
    front when it starts with [//], and the address itself otherwise,
    with a time-out of 5.  It returns the body of the response when the
    status is 200, nothing for any other status, and nothing (after a
    warning in the log) when the request raises; it never raises, and it
    returns bytes only in the first case. *)
Theorem fetch_image_bytes_contract (url : str) (st : St) :
  (startswith url (u "//") = true -> request_url url = u "https:" ++ url) /\
  (startswith url (u "//") = false -> request_url url = url) /\
  (forall resp w,
      session_get (request_url url) 5 (net st) = (Val resp, w) ->
      status_code resp = 200%Z ->
      fetch_image_bytes url st = (Val (Some (content resp)), set_net w st)) /\
  (forall resp w,
      session_get (request_url url) 5 (net st) = (Val resp, w) ->
      status_code resp <> 200%Z ->
      fetch_image_bytes url st = (Val None, set_net w st)) /\
  (forall e w,
      session_get (request_url url) 5 (net st) = (Raise e, w) ->
      fetch_image_bytes url st
      = (Val None,
         set_log (log st ++ [(WARNING, Could_not_download (request_url url) e)])
           (set_net w st))) /\
  (exists o st', fetch_image_bytes url st = (Val o, st')) /\
  (forall b st',
      fetch_image_bytes url st = (Val (Some b), st') ->
      exists resp w,
        session_get (request_url url) 5 (net st) = (Val resp, w)
        /\ status_code resp = 200%Z /\ b = content resp).
Proof.
  rewrite fetch_image_bytes_run. unfold request_url.
  destruct (session_get _ 5 (net st)) as [[resp|e] w] eqn:Hget.
  - repeat split.
    + intros ->. reflexivity.
    + intros ->. reflexivity.
    + intros resp0 w0 [= <- <-] H200. rewrite H200. reflexivity.
    + intros resp0 w0 [= <- <-] H200.
      destruct (Z.eqb_spec (status_code resp) 200); [contradiction|reflexivity].
    + intros e w0 [=].
    + eauto.
    + intros b st'. destruct (Z.eqb_spec (status_code resp) 200); [|intros [=]].
      intros [= <- <-]. eauto.
  - repeat split.
    + intros ->. reflexivity.
    + intros ->. reflexivity.
    + intros resp0 w0 [=].
    + intros resp0 w0 [=].
    + intros e0 w0 [= <- <-]. reflexivity.
    + eauto.
    + intros b st' [=].
Qed.

(** C1.  What the program does when the main page answers 404:
    [fetch_page] returns nothing without logging an error, and the
    worker then schedules [_handle_error], whose status text is
    "Connection Error", not [_handle_not_found]. *)
Theorem worker_thread_404_is_connection_error
    (url : str) (st : St) (resp : Response) (w : World) :
  session_get url 10 (net st) = (Val resp, w) ->
  status_code resp = 404%Z ->
  exists st',
    _worker_thread url st = (Val _handle_error, st')
    /\ log st' = log st ++ [(INFO, Requesting url)]
    /\ status_text _handle_error = u "Connection Error"
    /\ status_text _handle_error <> status_text _handle_not_found.
Proof.
  intros Hget H404. unfold _worker_thread, bind.
  rewrite (fetch_page_404 url st resp w Hget H404).
  eexists. split; [reflexivity|]. split; [reflexivity|]. split; [reflexivity|].
  intros H. vm_compute in H. discriminate.
Qed.

(** C3.  [_extract_item_details] always returns: it adds one object to
    the store and returns its reference.  The count of that object is 1
    when the image has no badge; with a badge, it is the integer [int]
    reads from the stripped text, which is the decimal value when the
    text is a non-empty run of ASCII digits within the interpreter's
    digit limit (3 for "3"), and 1 whenever [int] rejects the text (as
    for "x"). *)
Theorem extract_item_details_count (img_tag : PageElement) (st : St) :
  exists g,
    _extract_item_details img_tag st
    = (Val (length (heap st)), set_heap (heap st ++ [g]) st)
    /\ (count_badge img_tag = None -> count g = 1%Z)
    /\ (forall count_div,
          count_badge img_tag = Some count_div ->
          (forall n, int (get_text count_div true) = Val n -> count g = n)
          /\ (forall digits,
              get_text count_div true = digits ->
              digits <> [] ->
              Forall (fun c => is_digit c = true) digits ->
              int_max_str_digits = 0 \/ length digits <= int_max_str_digits ->
              count g = decimal_value digits)
          /\ (get_text count_div true = u "3" -> count g = 3%Z)
          /\ (forall e, int (get_text count_div true) = Raise e -> count g = 1%Z)
          /\ (get_text count_div true = u "x" -> count g = 1%Z)).
Proof.
  exists (item_value img_tag). split; [apply _extract_item_details_run|].
  unfold item_value, item_count. cbn [count].
  split.
  - intros ->. reflexivity.
  - intros count_div ->. repeat split.
    + intros n ->. reflexivity.
    + intros digits -> Hne Hds Hlim. rewrite (int_digits digits Hne Hds Hlim). reflexivity.
    + intros ->. rewrite (int_digits (u "3")).
      * reflexivity.
      * discriminate.
      * repeat constructor.
      * simpl. lia.
    + intros e ->. reflexivity.
    + intros ->. reflexivity.
Qed.

(** C8, as the program has it.  The count of an extracted item is an
    integer: 1 when the image has no badge or [int] rejects the badge
    text, and otherwise the integer [int] reads from it, whatever its
    sign.  It is positive exactly when there is no badge, or the text is
    rejected, or the integer read is positive. *)
Theorem extract_item_details_count_sign (img_tag : PageElement) (st : St) :
  exists g,
    _extract_item_details img_tag st
    = (Val (length (heap st)), set_heap (heap st ++ [g]) st)
    /\ (count_badge img_tag = None -> count g = 1%Z)
    /\ (forall count_div n,
          count_badge img_tag = Some count_div ->
          int (get_text count_div true) = Val n -> count g = n)
    /\ (forall count_div e,
          count_badge img_tag = Some count_div ->
          int (get_text count_div true) = Raise e -> count g = 1%Z)
    /\ ((0 < count g)%Z <->
        forall count_div n,
          count_badge img_tag = Some count_div ->
          int (get_text count_div true) = Val n -> (0 < n)%Z).
Proof.
  exists (item_value img_tag). split; [apply _extract_item_details_run|].
  unfold item_value, item_count. cbn [count].
  destruct (count_badge img_tag) as [count_div|].
  - destruct (int (get_text count_div true)) as [n|e] eqn:Hint.
    + split; [intros [=]|].
      split; [intros c n0 [= <-] E; congruence|].
      split; [intros c e0 [= <-] E; congruence|].
      split.
      * intros Hpos c n0 [= <-] E. congruence.
      * intros H. apply (H count_div n); auto.
    + split; [intros [=]|].
      split; [intros c n0 [= <-] E; congruence|].
      split; [reflexivity|].
      split; [|lia].
      intros _ c n0 [= <-] E. congruence.
  - split; [reflexivity|].
    split; [intros c n0 [=]|].
    split; [intros c e0 [=]|].
    split; [|lia].
    intros _ c n0 [=].
Qed.

(** C2.  One step of the loop over the rows: a row with fewer than three
    [td] cells leaves the list as it is; a row with three or more
    appends exactly one [BuildRow], whose pick rate and games are "N/A"
    when the second cell has no [strong], respectively no [span], and
    whose win rate is "N/A" when the third cell has no [strong].  Over a
    list of rows the loop returns, and appends as many rows as there are
    rows with three or more cells. *)
Theorem extract_row_cells (row : PageElement) (data : list BuildRow) (st : St) :
  (length (find_all row (named (u "td"))) < 3 ->
     extract_row row data st = (Val data, st)) /\
  (3 <= length (find_all row (named (u "td"))) ->
     exists b st',
       extract_row row data st = (Val (data ++ [b]), st')
       /\ (forall cell,
             find_all row (named (u "td")) !! 1 = Some cell ->
             find cell (named (u "strong")) = None -> pick_rate b = u "N/A")
       /\ (forall cell,
             find_all row (named (u "td")) !! 1 = Some cell ->
             find cell (named (u "span")) = None -> games b = u "N/A")
       /\ (forall cell,
             find_all row (named (u "td")) !! 2 = Some cell ->
             find cell (named (u "strong")) = None -> win_rate b = u "N/A")) /\
  (forall rows : list PageElement,
     exists out st',
       for_in rows extract_row data st = (Val (data ++ out), st')
       /\ length out
          = length (List.filter
                      (fun r => Nat.leb 3 (length (find_all r (named (u "td"))))) rows)).
Proof.
  rewrite extract_row_run. unfold row_kept, row_cells.
  split; [|split].
  - intros Hlt. destruct (Nat.leb_spec 3 (length (find_all row (named (u "td")))));
      [lia|reflexivity].
  - intros Hge. destruct (Nat.leb_spec 3 (length (find_all row (named (u "td")))));
      [|lia].
    eexists. eexists. split; [reflexivity|].
    unfold row_at, cell_stat, row_cells. cbn [pick_rate games win_rate].
    repeat split; intros cell -> ->; reflexivity.
  - intros rows. rewrite for_in_rows_run. eexists. eexists. split; [reflexivity|].
    generalize (length (heap st)).
    induction rows as [|r rows IH]; intros base; cbn [rows_from List.filter].
    + reflexivity.
    + unfold row_kept, row_cells.
      destruct (Nat.leb 3 (length (find_all r (named (u "td"))))); cbn [length];
        rewrite IH; reflexivity.
Qed.

(** C5.  The header test accepts a [th] whose lowered text contains the
    lowered header text; the extractor takes the first tag of the
    document, in document order, that passes it.  It returns the empty
    list, leaving the state as it was, when no tag passes, when the tag
    found has no [table] ancestor, and when that table contains no
    [tbody]; otherwise it runs the row loop over the [tr] tags of the
    body.  A [th] reading "Core Builds Overview" passes the test for
    "Core Builds". *)
Theorem extract_table_header_selection
    (soup : PageElement) (header_text : str) (st : St) :
  (forall tag,
      header_matches header_text tag = true <->
      named (u "th") tag = true
      /\ exists l r, lower (get_text tag false) = l ++ lower header_text ++ r) /\
  (forall header,
      find soup (header_matches header_text) = Some header <->
      exists before after,
        descendants soup = before ++ header :: after
        /\ is_tag header && header_matches header_text header = true
        /\ Forall (fun e => is_tag e && header_matches header_text e = false) before) /\
  (find soup (header_matches header_text) = None ->
     _extract_table_by_header soup header_text st = (Val [], st)) /\
  (forall header,
      find soup (header_matches header_text) = Some header ->
      find_parent header (named (u "table")) = None ->
      _extract_table_by_header soup header_text st = (Val [], st)) /\
  (forall header table,
      find soup (header_matches header_text) = Some header ->
      find_parent header (named (u "table")) = Some table ->
      find table (named (u "tbody")) = None ->
      _extract_table_by_header soup header_text st = (Val [], st)) /\
  (forall header table tbody,
      find soup (header_matches header_text) = Some header ->
      find_parent header (named (u "table")) = Some table ->
      find table (named (u "tbody")) = Some tbody ->
      _extract_table_by_header soup header_text st
      = for_in (find_all tbody (named (u "tr"))) extract_row [] st) /\
  (forall ancestors,
      header_matches (u "Core Builds")
        {| this := Tag (u "th") [] [Text NavigableString (u "Core Builds Overview")];
           parents := ancestors |} = true).
Proof.
  split; [|split; [|split; [|split; [|split; [|split]]]]].
  - intros tag. unfold header_matches. rewrite andb_true_iff, contains_spec. reflexivity.
  - intros header. unfold find.
    apply (find_first (fun d => is_tag d && header_matches header_text d)).
  - intros H. unfold _extract_table_by_header. rewrite H. reflexivity.
  - intros header H1 H2. unfold _extract_table_by_header. rewrite H1, H2. reflexivity.
  - intros header table H1 H2 H3. unfold _extract_table_by_header.
    rewrite H1, H2, H3. reflexivity.
  - intros header table tbody H1 H2 H3. unfold _extract_table_by_header.
    rewrite H1, H2, H3. reflexivity.
  - intros ancestors. reflexivity.
Qed.

(** C9.  Two runs of the extractor on the same document with the same
    header text both return, and their results are equal by value: the
    rows hold the same items (field by field), win rate, pick rate and
    games.  The second run leaves the objects of the first untouched,
    and neither touches the network or the log. *)
Theorem extract_table_twice_equal
    (soup : PageElement) (header_text : str) (st : St) :
  exists rows1 st1 rows2 st2 v,
    _extract_table_by_header soup header_text st = (Val rows1, st1)
    /\ _extract_table_by_header soup header_text st1 = (Val rows2, st2)
    /\ rows_value (heap st1) rows1 = Some v
    /\ rows_value (heap st2) rows1 = Some v
    /\ rows_value (heap st2) rows2 = Some v
    /\ length rows1 = length rows2
    /\ net st2 = net st /\ log st2 = log st.
Proof.
  rewrite _extract_table_by_header_run.
  do 5 eexists. split; [reflexivity|].
  rewrite _extract_table_by_header_run. split; [reflexivity|].
  cbn [heap set_heap net log].
  set (T := table_rows soup header_text).
  split; [|split; [|split; [|split; [|split]]]].
  - apply (rows_value_at _ T (heap st) []). rewrite app_nil_r. reflexivity.
  - apply (rows_value_at _ T (heap st) (rows_items T)). rewrite <- app_assoc. reflexivity.
  - apply (rows_value_at _ T (heap st ++ rows_items T) []). rewrite app_nil_r. reflexivity.
  - generalize (length (heap st)) (length (heap st ++ rows_items T)).
    induction T as [|row T IH]; intros a b; cbn [rows_from]; [reflexivity|].
    destruct (row_kept row); cbn [length]; erewrite IH; reflexivity.
  - reflexivity.
  - reflexivity.
Qed.

(** C6.  [get_all_data] returns a dictionary with the four categories
    in order.  The rows of each category are, by value and apart from
    the image bytes, those one run of the extractor gives on the same
    document for "Core Builds", "Starter Items", "Boots" and, for the
    category Skills, "Skill".  The store grows by what those four
    runs allocate, once each.  When no tag of the document passes the
    header test for "Boots", that category holds the empty list. *)
Theorem get_all_data_categories (soup : PageElement) (st : St) :
  exists results st',
    get_all_data soup st = (Val results, st')
    /\ List.map fst results
       = [u "Core Builds"; u "Starter Items"; u "Boots"; u "Skills"]
    /\ (forall category header_text,
          In (category, header_text)
            [ (u "Core Builds", u "Core Builds"); (u "Starter Items", u "Starter Items");
              (u "Boots", u "Boots"); (u "Skills", u "Skill") ] ->
          forall st0 : St,
          exists rows rows0 st0' v,
            results_get results category = Some rows
            /\ _extract_table_by_header soup header_text st0 = (Val rows0, st0')
            /\ rows_shape (heap st') rows = Some v
            /\ rows_shape (heap st0') rows0 = Some v)
    /\ (forall st0 : St,
          length (heap st') - length (heap st)
          = allocated (_extract_table_by_header soup (u "Core Builds")) st0
            + allocated (_extract_table_by_header soup (u "Starter Items")) st0
            + allocated (_extract_table_by_header soup (u "Boots")) st0
            + allocated (_extract_table_by_header soup (u "Skill")) st0)
    /\ (find soup (header_matches (u "Boots")) = None ->
        results_get results (u "Boots") = Some []).
Proof.
  destruct (get_all_data_run soup st) as (st' & Hrun & Hinv).
  cbv zeta in Hrun, Hinv.
  set (T := table_rows soup) in *.
  set (h1 := heap st ++ rows_items (T (u "Core Builds"))) in *.
  set (h2 := h1 ++ rows_items (T (u "Starter Items"))) in *.
  set (h3 := h2 ++ rows_items (T (u "Boots"))) in *.
  set (h4 := h3 ++ rows_items (T (u "Skill"))) in *.
  eexists. exists st'. split; [exact Hrun|]. split; [reflexivity|].
  split; [|split].
  - intros category header_text Hin st0.
    rewrite _extract_table_by_header_run. fold (T header_text).
    assert (Hstandalone :
      rows_shape (heap (set_heap (heap st0 ++ rows_items (T header_text)) st0))
        (rows_from (length (heap st0)) (T header_text))
      = Some (shape <$> List.map row_pure (List.filter row_kept (T header_text)))).
    { unfold rows_shape. cbn [heap set_heap].
      rewrite (rows_value_at _ (T header_text) (heap st0) []); [reflexivity|].
      rewrite app_nil_r. reflexivity. }
    assert (Hagg : forall H X,
      h4 = H ++ rows_items (T header_text) ++ X ->
      rows_shape (heap st') (rows_from (length H) (T header_text))
      = Some (shape <$> List.map row_pure (List.filter row_kept (T header_text)))).
    { intros H X Hh4. apply (rows_shape_without_image h4); [exact Hinv|].
      unfold rows_shape. rewrite (rows_value_at _ _ H X Hh4). reflexivity. }
    cbn [In] in Hin.
    destruct Hin as [[= <- <-]|[[= <- <-]|[[= <- <-]|[[= <- <-]|[]]]]].
    + do 4 eexists. split; [reflexivity|]. split; [reflexivity|].
      split; [|exact Hstandalone].
      apply (Hagg (heap st) (rows_items (T (u "Starter Items")) ++ rows_items (T (u "Boots"))
                               ++ rows_items (T (u "Skill")))).
      unfold h4, h3, h2, h1. rewrite <- !app_assoc. reflexivity.
    + do 4 eexists. split; [reflexivity|]. split; [reflexivity|].
      split; [|exact Hstandalone].
      apply (Hagg h1 (rows_items (T (u "Boots")) ++ rows_items (T (u "Skill")))).
      unfold h4, h3, h2. rewrite <- !app_assoc. reflexivity.
    + do 4 eexists. split; [reflexivity|]. split; [reflexivity|].
      split; [|exact Hstandalone].
      apply (Hagg h2 (rows_items (T (u "Skill")))).
      unfold h4, h3. rewrite <- !app_assoc. reflexivity.
    + do 4 eexists. split; [reflexivity|]. split; [reflexivity|].
      split; [|exact Hstandalone].
      apply (Hagg h3 []). unfold h4. rewrite app_nil_r. reflexivity.
  - intros st0. apply (f_equal length) in Hinv. rewrite !length_fmap in Hinv.
    rewrite Hinv. unfold allocated. rewrite !_extract_table_by_header_run.
    cbn [snd heap set_heap]. fold T. unfold h4, h3, h2, h1.
    rewrite !length_app. lia.
  - intros Hboots.
    assert (HT : T (u "Boots") = []) by (unfold T, table_rows; rewrite Hboots; reflexivity).
    rewrite HT. reflexivity.
Qed.

(** C10.  Every item of every row the extractor returns is an object of
    the store with a non-empty image address; the items of a kept row
    are exactly the images of its first cell whose [src] is present and
    not empty, in order.  The same holds for every item of the
    dictionary [get_all_data] returns, so the pre-fetch condition holds
    for each of them. *)
Theorem extracted_items_have_image_source
    (soup : PageElement) (header_text : str) (st : St) :
  (exists rows st',
      _extract_table_by_header soup header_text st = (Val rows, st')
      /\ forall row item,
           In row rows -> In item (items row) ->
           exists g, heap st' !! item = Some g
                     /\ image_url g <> [] /\ truthy (image_url g) = true) /\
  (forall row data item_container,
      3 <= length (find_all row (named (u "td"))) ->
      find_all row (named (u "td")) !! 0 = Some item_container ->
      exists b st',
        extract_row row data st = (Val (data ++ [b]), st')
        /\ deref_all (heap st') (items b)
           = Some (List.map item_value
                     (List.filter (fun img => truthy_opt (get img (u "src")))
                        (find_all item_container (named (u "img")))))) /\
  (exists results st',
      get_all_data soup st = (Val results, st')
      /\ forall category rows row item,
           In (category, rows) results -> In row rows -> In item (items row) ->
           exists g, heap st' !! item = Some g
                     /\ image_url g <> [] /\ truthy (image_url g) = true).
Proof.
  split; [|split].
  - rewrite _extract_table_by_header_run. do 2 eexists. split; [reflexivity|].
    intros row item Hrow Hitem. cbn [heap set_heap].
    destruct (lookup_in_block (fun g => truthy (image_url g) = true)
                (heap st) (rows_items (table_rows soup header_text)) item)
      as (g & Hg & Hurl).
    + apply rows_items_have_src.
    + pose proof (rows_from_range (table_rows soup header_text) (length (heap st))) as Hr.
      rewrite List.Forall_forall in Hr. apply Hr. apply in_flat_map. eauto.
    + exists g. split; [exact Hg|]. split; [apply truthy_nonempty|]; exact Hurl.
  - intros row data item_container Hge Hc0. rewrite extract_row_run.
    unfold row_kept, row_cells.
    destruct (Nat.leb_spec 3 (length (find_all row (named (u "td"))))); [|lia].
    do 2 eexists. split; [reflexivity|]. cbn [heap set_heap].
    unfold row_at, row_images, row_cells. cbn [items].
    destruct (find_all row (named (u "td"))) as [|c0 cols]; [discriminate|].
    injection Hc0 as ->.
    rewrite <- (length_map item_value).
    rewrite <- (app_nil_r (List.map item_value _)) at 1.
    apply deref_all_block.
  - destruct (get_all_data_run soup st) as (st' & Hrun & Hinv).
    cbv zeta in Hrun, Hinv.
    set (T := table_rows soup) in *.
    set (R1 := rows_items (T (u "Core Builds"))) in *.
    set (R2 := rows_items (T (u "Starter Items"))) in *.
    set (R3 := rows_items (T (u "Boots"))) in *.
    set (R4 := rows_items (T (u "Skill"))) in *.
    eexists. exists st'. split; [exact Hrun|].
    intros category rows row item Hcat Hrow Hitem.
    assert (Hrange : length (heap st) <= item
                     < length (heap st) + length (R1 ++ R2 ++ R3 ++ R4)).
    { rewrite !length_app. cbn [In] in Hcat.
      destruct Hcat as [[= <- <-]|[[= <- <-]|[[= <- <-]|[[= <- <-]|[]]]]];
        match type of Hrow with
        | In _ (rows_from ?base ?rows) =>
            pose proof (rows_from_range rows base) as Hr;
            rewrite List.Forall_forall in Hr;
            specialize (Hr item ltac:(apply in_flat_map; eauto));
            rewrite ?length_app in Hr; fold R1 R2 R3 R4 in Hr; lia
        end. }
    destruct (lookup_in_block (fun g => truthy (image_url g) = true)
                (heap st) (R1 ++ R2 ++ R3 ++ R4) item) as (g & Hg & Hurl).
    + repeat (apply Forall_app; split); apply rows_items_have_src.
    + exact Hrange.
    + destruct (lookup_without_image _ (heap st') item g Hinv) as (g' & Hg' & Himg).
      { rewrite <- !app_assoc. exact Hg. }
      exists g'. split; [exact Hg'|]. rewrite Himg.
      split; [apply truthy_nonempty|]; exact Hurl.
Qed.

(** *** Further properties: the name normaliser *)

Lemma lower_from_ascii (whole : str) (i : nat) (rest : str) :
  forallb (fun c => N.ltb c 128) rest = true ->
  lower_from whole i rest = List.map ascii_lower rest.
Proof.
  revert i. induction rest as [|c rest IH]; intros i H; simpl in *; [reflexivity|].
  apply andb_true_iff in H. destruct H as [Hc Hrest]. rewrite Hc, IH by exact Hrest.
  reflexivity.
Qed.

Lemma lower_ascii (s : str) :
  forallb (fun c => N.ltb c 128) s = true -> lower s = List.map ascii_lower s.
Proof. apply lower_from_ascii. Qed.

Lemma a_z_is_ascii (s : str) :
  Forall (fun c => is_a_z c = true) s -> forallb (fun c => N.ltb c 128) s = true.
Proof.
  intros H. apply forallb_forall. intros c Hc. rewrite List.Forall_forall in H.
  specialize (H c Hc). unfold is_a_z in H. apply andb_true_iff in H.
  rewrite !N.leb_le in H. apply N.ltb_lt. unfold char in *. lia.
Qed.

Lemma ascii_lower_a_z (c : char) : is_a_z c = true -> ascii_lower c = c.
Proof.
  unfold is_a_z, ascii_lower. intros H. apply andb_true_iff in H.
  rewrite !N.leb_le in H.
  destruct (N.leb 65 c && N.leb c 90) eqn:E; [|reflexivity].
  apply andb_true_iff in E. rewrite !N.leb_le in E. unfold char in *. lia.
Qed.

Lemma filter_all {A} (p : A -> bool) (l : list A) :
  Forall (fun x => p x = true) l -> List.filter p l = l.
Proof.
  induction 1 as [|x l Hx _ IH]; simpl; [reflexivity|]. rewrite Hx, IH. reflexivity.
Qed.

Lemma map_id_on {A} (f : A -> A) (P : A -> Prop) (l : list A) :
  (forall x, P x -> f x = x) -> Forall P l -> List.map f l = l.
Proof.
  intros Hf. induction 1 as [|x l Hx _ IH]; simpl; [reflexivity|].
  rewrite Hf, IH by assumption. reflexivity.
Qed.

(** X1.  Normalising twice is normalising once: a normalised name is
    left as it is, whatever the Unicode tables of the interpreter. *)
Theorem normalize_champion_name_idempotent (name : str) :
  normalize_champion_name (normalize_champion_name name) = normalize_champion_name name.
Proof.
  unfold normalize_champion_name.
  pose proof (sub_non_a_z_only (lower name)) as Haz.
  set (t := sub_non_a_z (lower name)) in *.
  rewrite (lower_ascii t (a_z_is_ascii t Haz)).
  rewrite (map_id_on ascii_lower (fun c => is_a_z c = true) t ascii_lower_a_z Haz).
  apply filter_all, Haz.
Qed.

Lemma is_a_z_ascii_lower (c : char) : is_a_z (ascii_lower c) = is_ascii_letter c.
Proof.
  unfold is_a_z, ascii_lower, is_ascii_letter.
  destruct (N.leb 65 c && N.leb c 90) eqn:E.
  - apply andb_true_iff in E. rewrite !N.leb_le in E. simpl.
    apply andb_true_iff. rewrite !N.leb_le. unfold char in *. lia.
  - reflexivity.
Qed.

Lemma filter_map_comm {A B} (f : A -> B) (p : B -> bool) (l : list A) :
  List.filter p (List.map f l) = List.map f (List.filter (fun x => p (f x)) l).
Proof.
  induction l as [|x l IH]; simpl; [reflexivity|].
  destruct (p (f x)); simpl; rewrite IH; reflexivity.
Qed.

Lemma normalize_ascii (s : str) :
  isascii s = true ->
  normalize_champion_name s = List.map ascii_lower (List.filter is_ascii_letter s).
Proof.
  intros H. unfold normalize_champion_name, sub_non_a_z.
  rewrite (lower_ascii s H), filter_map_comm.
  f_equal. apply List.filter_ext. intros c. apply is_a_z_ascii_lower.
Qed.

(** X2.  On ASCII input the normaliser works letter by letter: the
    result is the input's ASCII letters, lowered, in order; so it
    distributes over concatenation, and it is never longer than the
    input. *)
Theorem normalize_champion_name_ascii (a b : str) :
  isascii a = true ->
  isascii b = true ->
  normalize_champion_name a = List.map ascii_lower (List.filter is_ascii_letter a)
  /\ normalize_champion_name (a ++ b)
     = normalize_champion_name a ++ normalize_champion_name b
  /\ length (normalize_champion_name a) <= length a.
Proof.
  intros Ha Hb.
  assert (Hab : isascii (a ++ b) = true).
  { unfold isascii in *. rewrite forallb_app. apply andb_true_iff. split; assumption. }
  rewrite !normalize_ascii by assumption.
  split; [reflexivity|]. split.
  - rewrite List.filter_app, List.map_app. reflexivity.
  - rewrite length_map. apply List.filter_length_le.
Qed.

(** *** Further properties: the page fetcher and the worker *)

Lemma fetch_page_run (url : str) (st : St) :
  let info := log st ++ [(INFO, Requesting url)] in
  let failed e w :=
    (Val None, set_log (info ++ [(ERROR, Failed_to_fetch url e)]) (set_net w st)) in
  fetch_page url st
  = match session_get url 10 (net st) with
    | (Val resp, w) =>
        if Z.eqb (status_code resp) 404 then (Val None, set_log info (set_net w st))
        else if Z.leb 400 (status_code resp) && Z.ltb (status_code resp) 600
        then failed (HTTPError (status_code resp)) w
        else
          match html_parser (text resp) with
          | Val soup => (Val (Some soup), set_log info (set_net w st))
          | Raise e =>
              if is_RequestException e then failed e w
              else (Raise e, set_log info (set_net w st))
          end
    | (Raise e, w) =>
        if is_RequestException e then failed e w
        else (Raise e, set_log info (set_net w st))
    end.
Proof.
  cbv zeta.
  unfold fetch_page, try_except, bind, session_get_, logger, raise_for_status, lift.
  unfold raise, ret.
  cbn [net set_log].
  destruct (session_get url 10 (net st)) as [[resp|e] w].
  - destruct (Z.eqb (status_code resp) 404); [reflexivity|].
    destruct (Z.leb 400 (status_code resp) && Z.ltb (status_code resp) 600);
      [reflexivity|].
    destruct (html_parser (text resp)) as [soup|e]; [reflexivity|].
    destruct (is_RequestException e); reflexivity.
  - destruct (is_RequestException e); reflexivity.
Qed.


Lemma worker_thread_run (url : str) (st : St) :
  _worker_thread url st
  = match fetch_page url st with
    | (Val None, st1) => (Val _handle_error, st1)
    | (Val (Some soup), st1) =>
        if negb (contains (get_text soup false) (u "Core Builds"))
           && negb (contains (get_text soup false) (u "Starter Items"))
        then (Val _handle_not_found, st1)
        else
          match get_all_data soup st1 with
          | (Val results, st') => (Val (_update_ui results), st')
          | (Raise e, st') => (Raise e, st')
          end
    | (Raise e, st1) => (Raise e, st1)
    end.
Proof.
  unfold _worker_thread, bind.
  destruct (fetch_page url st) as [[[soup|]|e] st1]; try reflexivity.
  destruct (negb _ && negb _); [reflexivity|].
  destruct (get_all_data soup st1) as [[results|e] st']; reflexivity.
Qed.

Lemma worker_thread_after_fetch (url : str) (st : St) (soup : PageElement) (st1 : St) :
  fetch_page url st = (Val (Some soup), st1) ->
  exists cb st',
    _worker_thread url st = (Val cb, st')
    /\ (cb = _handle_not_found /\ st' = st1
        /\ contains (get_text soup false) (u "Core Builds") = false
        /\ contains (get_text soup false) (u "Starter Items") = false
        \/ exists results,
             cb = _update_ui results
             /\ get_all_data soup st1 = (Val results, st')
             /\ (contains (get_text soup false) (u "Core Builds") = true
                 \/ contains (get_text soup false) (u "Starter Items") = true)).
Proof.
  intros Hfetch. rewrite worker_thread_run, Hfetch.
  destruct (contains (get_text soup false) (u "Core Builds")) eqn:Hcore;
    destruct (contains (get_text soup false) (u "Starter Items")) eqn:Hstarter;
    cbn [negb andb];
    try solve [destruct (get_all_data_run soup st1) as (st' & Hrun & _);
               cbv zeta in Hrun; rewrite Hrun; do 2 eexists; split; [reflexivity|]; right; eexists;
               split; [reflexivity|]; split; [reflexivity|]; auto].
  do 2 eexists. split; [reflexivity|]. left. auto.
Qed.

(** X4.  The worker schedules [_handle_error] exactly when the request
    raises a request exception, or answers with a status in 400..599
    (404 included), or the parser raises a request exception. *)
Theorem worker_thread_connection_error_iff (url : str) (st : St) :
  (exists st', _worker_thread url st = (Val _handle_error, st')) <->
  (exists e w,
      session_get url 10 (net st) = (Raise e, w) /\ is_RequestException e = true)
  \/ (exists resp w,
        session_get url 10 (net st) = (Val resp, w)
        /\ (400 <= status_code resp < 600)%Z)
  \/ (exists resp w e,
        session_get url 10 (net st) = (Val resp, w)
        /\ ~ (400 <= status_code resp < 600)%Z
        /\ html_parser (text resp) = Raise e /\ is_RequestException e = true).
Proof.
  destruct (fetch_page url st) as [r st1] eqn:Hfetch.
  pose proof Hfetch as Hrun. rewrite fetch_page_run in Hrun. cbv zeta in Hrun.
  destruct (session_get url 10 (net st)) as [[resp|e] w] eqn:Hget.
  - destruct (Z.eqb_spec (status_code resp) 404) as [H404|H404].
    { injection Hrun as <- <-. rewrite worker_thread_run, Hfetch. split; [|eauto].
      intros _. right. left. exists resp, w. split; [reflexivity|]. lia. }
    destruct (Z.leb 400 (status_code resp) && Z.ltb (status_code resp) 600) eqn:Herr.
    { apply andb_true_iff in Herr. rewrite Z.leb_le, Z.ltb_lt in Herr.
      injection Hrun as <- <-. rewrite worker_thread_run, Hfetch. split; [|eauto].
      intros _. right. left. exists resp, w. split; [reflexivity|]. lia. }
    assert (Hok : ~ (400 <= status_code resp < 600)%Z).
    { apply andb_false_iff in Herr. rewrite Z.leb_gt, Z.ltb_ge in Herr. lia. }
    destruct (html_parser (text resp)) as [soup|e] eqn:Hparse.
    { injection Hrun as <- <-.
      destruct (worker_thread_after_fetch url st soup _ Hfetch)
        as (cb & st' & Hw & Hcb).
      rewrite Hw. split.
      - intros (st2 & [= Hcb' _]).
        destruct Hcb as [(Hcb & _)|(results & Hcb & _)]; congruence.
      - intros [(e & w0 & [=] & _)|[(resp0 & w0 & [= <- <-] & Hs)|
                (resp0 & w0 & e & [= <- <-] & _ & Hp & _)]]; [contradiction|congruence]. }
    destruct (is_RequestException e) eqn:He; injection Hrun as <- <-;
      rewrite worker_thread_run, Hfetch.
    + split; [|eauto]. intros _. right. right. exists resp, w, e. auto.
    + split; [intros (st2 & [=])|].
      intros [(e0 & w0 & [=] & _)|[(resp0 & w0 & [= <- <-] & Hs)|
              (resp0 & w0 & e0 & [= <- <-] & _ & Hp & He0)]]; [contradiction|congruence].
  - destruct (is_RequestException e) eqn:He; injection Hrun as <- <-;
      rewrite worker_thread_run, Hfetch.
    + split; [|eauto]. intros _. left. eauto.
    + split; [intros (st2 & [=])|].
      intros [(e0 & w0 & [= <- <-] & He0)|[(resp0 & w0 & [=] & _)|
              (resp0 & w0 & e0 & [=] & _)]]. congruence.
Qed.

Lemma status_not_error (s : Z) :
  ~ (400 <= s < 600)%Z <->
  Z.eqb s 404 = false /\ Z.leb 400 s && Z.ltb s 600 = false.
Proof.
  rewrite Z.eqb_neq, andb_false_iff, Z.leb_gt, Z.ltb_ge. lia.
Qed.

Lemma fetch_page_some_iff (url : str) (st : St) (soup : PageElement) (st1 : St) :
  fetch_page url st = (Val (Some soup), st1) <->
  exists resp w,
    session_get url 10 (net st) = (Val resp, w)
    /\ ~ (400 <= status_code resp < 600)%Z
    /\ html_parser (text resp) = Val soup
    /\ st1 = set_log (log st ++ [(INFO, Requesting url)]) (set_net w st).
Proof.
  rewrite fetch_page_run. cbv zeta.
  destruct (session_get url 10 (net st)) as [[resp|e] w] eqn:Hget.
  - destruct (Z.eqb (status_code resp) 404) eqn:H404.
    { split; [discriminate|]. intros (resp0 & w0 & [= <- <-] & Hok & _).
      apply status_not_error in Hok. destruct Hok. congruence. }
    destruct (Z.leb 400 (status_code resp) && Z.ltb (status_code resp) 600) eqn:Herr.
    { split; [discriminate|]. intros (resp0 & w0 & [= <- <-] & Hok & _).
      apply status_not_error in Hok. destruct Hok. congruence. }
    assert (Hok : ~ (400 <= status_code resp < 600)%Z) by (apply status_not_error; auto).
    destruct (html_parser (text resp)) as [soup0|e] eqn:Hparse.
    + split.
      * intros [= <- <-]. eauto 8.
      * intros (resp0 & w0 & [= <- <-] & _ & Hp & ->). congruence.
    + split.
      * destruct (is_RequestException e); discriminate.
      * intros (resp0 & w0 & [= <- <-] & _ & Hp & _). congruence.
  - split.
    + destruct (is_RequestException e); discriminate.
    + intros (resp0 & w0 & [=] & _).
Qed.

Lemma fetch_page_raise_iff (url : str) (st : St) (e : exception) (st1 : St) :
  fetch_page url st = (Raise e, st1) <->
  is_RequestException e = false
  /\ exists w,
       st1 = set_log (log st ++ [(INFO, Requesting url)]) (set_net w st)
       /\ (session_get url 10 (net st) = (Raise e, w)
           \/ exists resp,
                session_get url 10 (net st) = (Val resp, w)
                /\ ~ (400 <= status_code resp < 600)%Z
                /\ html_parser (text resp) = Raise e).
Proof.
  rewrite fetch_page_run. cbv zeta.
  destruct (session_get url 10 (net st)) as [[resp|e0] w] eqn:Hget.
  - destruct (Z.eqb (status_code resp) 404) eqn:H404.
    { split; [discriminate|].
      intros (_ & w0 & _ & [[=]|(resp0 & [= <- <-] & Hok & _)]).
      apply status_not_error in Hok. destruct Hok. congruence. }
    destruct (Z.leb 400 (status_code resp) && Z.ltb (status_code resp) 600) eqn:Herr.
    { split; [discriminate|].
      intros (_ & w0 & _ & [[=]|(resp0 & [= <- <-] & Hok & _)]).
      apply status_not_error in Hok. destruct Hok. congruence. }
    assert (Hok : ~ (400 <= status_code resp < 600)%Z) by (apply status_not_error; auto).
    destruct (html_parser (text resp)) as [soup0|e0] eqn:Hparse.
    + split; [discriminate|].
      intros (_ & w0 & _ & [[=]|(resp0 & [= <- <-] & _ & Hp)]). congruence.
    + destruct (is_RequestException e0) eqn:He.
      * split; [discriminate|].
        intros (He' & w0 & _ & [[=]|(resp0 & [= <- <-] & _ & Hp)]). congruence.
      * split.
        -- intros [= <- <-]. split; [exact He|]. exists w. split; [reflexivity|].
           right. eauto.
        -- intros (_ & w0 & -> & [[=]|(resp0 & [= <- <-] & _ & Hp)]). congruence.
  - destruct (is_RequestException e0) eqn:He.
    + split; [discriminate|].
      intros (He' & w0 & _ & [[= <- <-]|(resp0 & [=] & _)]). congruence.
    + split.
      * intros [= <- <-]. split; [exact He|]. exists w. split; [reflexivity|]. auto.
      * intros (_ & w0 & -> & [[= <- <-]|(resp0 & [=] & _)]). reflexivity.
Qed.

(** X5.  The worker schedules [_handle_not_found] exactly when the page
    is fetched and parsed and its text contains neither "Core Builds"
    nor "Starter Items" (compared as written, case included).  Nothing
    is extracted then: the store is as before, one request was made and
    one line logged. *)
Theorem worker_thread_not_found_iff (url : str) (st st' : St) :
  _worker_thread url st = (Val _handle_not_found, st') <->
  exists resp w soup,
    session_get url 10 (net st) = (Val resp, w)
    /\ ~ (400 <= status_code resp < 600)%Z
    /\ html_parser (text resp) = Val soup
    /\ contains (get_text soup false) (u "Core Builds") = false
    /\ contains (get_text soup false) (u "Starter Items") = false
    /\ st' = set_log (log st ++ [(INFO, Requesting url)]) (set_net w st).
Proof.
  split.
  - intros Hw. rewrite worker_thread_run in Hw.
    destruct (fetch_page url st) as [[[soup|]|e] st1] eqn:Hfetch; try discriminate.
    destruct (worker_thread_after_fetch url st soup st1 Hfetch) as (cb & st2 & Hw2 & Hcb).
    rewrite worker_thread_run, Hfetch in Hw2. rewrite Hw2 in Hw.
    injection Hw as -> ->.
    destruct Hcb as [(_ & -> & Hcore & Hstarter)|(results & [=] & _)].
    apply fetch_page_some_iff in Hfetch. destruct Hfetch as (resp & w & Hget & Hok & Hp & ->).
    exists resp, w, soup. auto 10.
  - intros (resp & w & soup & Hget & Hok & Hp & Hcore & Hstarter & ->).
    assert (Hfetch : fetch_page url st
                     = (Val (Some soup),
                        set_log (log st ++ [(INFO, Requesting url)]) (set_net w st)))
      by (apply fetch_page_some_iff; eauto 8).
    rewrite worker_thread_run, Hfetch, Hcore, Hstarter. reflexivity.
Qed.

(** X6.  When the page is fetched and its text contains "Core Builds"
    or "Starter Items", the worker returns and schedules [_update_ui]
    with what [get_all_data] returns on the page: a dictionary of the
    four categories.  It schedules [_update_ui] in no other case. *)
Theorem worker_thread_update_ui (url : str) (st : St) :
  (forall soup st1,
      fetch_page url st = (Val (Some soup), st1) ->
      contains (get_text soup false) (u "Core Builds") = true
      \/ contains (get_text soup false) (u "Starter Items") = true ->
      exists results st',
        _worker_thread url st = (Val (_update_ui results), st')
        /\ get_all_data soup st1 = (Val results, st')) /\
  (forall results st',
      _worker_thread url st = (Val (_update_ui results), st') ->
      List.map fst results = [u "Core Builds"; u "Starter Items"; u "Boots"; u "Skills"]
      /\ exists soup st1,
           fetch_page url st = (Val (Some soup), st1)
           /\ get_all_data soup st1 = (Val results, st')
           /\ (contains (get_text soup false) (u "Core Builds") = true
               \/ contains (get_text soup false) (u "Starter Items") = true)).
Proof.
  split.
  - intros soup st1 Hfetch Hmark.
    destruct (worker_thread_after_fetch url st soup st1 Hfetch) as (cb & st' & Hw & Hcb).
    destruct Hcb as [(_ & _ & Hcore & Hstarter)|(results & -> & Hgad & _)].
    + destruct Hmark; congruence.
    + eauto.
  - intros results st' Hw. rewrite worker_thread_run in Hw.
    destruct (fetch_page url st) as [[[soup|]|e] st1] eqn:Hfetch; try discriminate.
    destruct (worker_thread_after_fetch url st soup st1 Hfetch) as (cb & st2 & Hw2 & Hcb).
    rewrite worker_thread_run, Hfetch in Hw2. rewrite Hw2 in Hw.
    injection Hw as -> ->.
    destruct Hcb as [([=] & _)|(results0 & [= <-] & Hgad & Hmark)].
    split; [|eauto 8].
    destruct (get_all_data_run soup st1) as (st3 & Hrun & _). cbv zeta in Hrun.
    rewrite Hrun in Hgad. injection Hgad as <- _. reflexivity.
Qed.

(** X7.  The worker raises, and so schedules no callback, exactly when
    the request or the parser raises an exception that is not a request
    exception; that exception is the one that escapes, after the one
    request and its log line. *)
Theorem worker_thread_raises_iff (url : str) (st : St) (e : exception) (st' : St) :
  _worker_thread url st = (Raise e, st') <->
  is_RequestException e = false
  /\ exists w,
       st' = set_log (log st ++ [(INFO, Requesting url)]) (set_net w st)
       /\ (session_get url 10 (net st) = (Raise e, w)
           \/ exists resp,
                session_get url 10 (net st) = (Val resp, w)
                /\ ~ (400 <= status_code resp < 600)%Z
                /\ html_parser (text resp) = Raise e).
Proof.
  rewrite <- fetch_page_raise_iff. rewrite worker_thread_run.
  destruct (fetch_page url st) as [[[soup|]|e0] st1] eqn:Hfetch.
  - destruct (worker_thread_after_fetch url st soup st1 Hfetch) as (cb & st2 & Hw2 & _).
    rewrite worker_thread_run, Hfetch in Hw2. rewrite Hw2. split; discriminate.
  - split; discriminate.
  - split; intros [= -> ->]; reflexivity.
Qed.

(** *** Further properties: the table extractor *)

Lemma rows_from_items (rows : list PageElement) (base : nat) :
  flat_map items (rows_from base rows) = seq base (length (rows_items rows)).
Proof.
  revert base. induction rows as [|row rows IH]; intros base; cbn [rows_from].
  - reflexivity.
  - rewrite rows_items_cons, length_app. destruct (row_kept row).
    + cbn [flat_map]. rewrite IH, length_map. unfold row_at. cbn [items].
      rewrite seq_app. reflexivity.
    + apply IH.
Qed.

Lemma rows_items_no_image (rows : list PageElement) :
  Forall (fun g => image_data g = None) (rows_items rows).
Proof.
  induction rows as [|row rows IH]; [constructor|].
  rewrite rows_items_cons. apply Forall_app. split; [|exact IH].
  destruct (row_kept row); [|constructor].
  apply List.Forall_forall. intros g Hg. apply in_map_iff in Hg.
  destruct Hg as (img & <- & _). reflexivity.
Qed.

(** X8.  A run of the extractor only adds to the store: the objects
    that were there are untouched, and the network and the log are not
    used.  The items of the returned rows, read row after row, are
    exactly the references of the added objects, each once and in
    order; so no item object is shared between rows, and every new
    object has no image bytes yet. *)
Theorem extract_table_adds_fresh_items
    (soup : PageElement) (header_text : str) (st : St) :
  exists rows st' added,
    _extract_table_by_header soup header_text st = (Val rows, st')
    /\ heap st' = heap st ++ added
    /\ net st' = net st /\ log st' = log st
    /\ flat_map items rows = seq (length (heap st)) (length added)
    /\ NoDup (flat_map items rows)
    /\ Forall (fun g => image_data g = None) added.
Proof.
  rewrite _extract_table_by_header_run. do 3 eexists.
  split; [reflexivity|]. cbn [heap net log set_heap].
  split; [reflexivity|]. split; [reflexivity|]. split; [reflexivity|].
  split; [apply rows_from_items|]. split.
  - rewrite rows_from_items. apply NoDup_seq.
  - apply rows_items_no_image.
Qed.

Lemma find_ext {A} (p q : A -> bool) (l : list A) :
  (forall x, p x = q x) -> List.find p l = List.find q l.
Proof.
  intros H. induction l as [|x l IH]; simpl; [reflexivity|].
  rewrite H, IH. reflexivity.
Qed.

(** X9.  The extractor does not see the case of the header text: two
    header texts with the same lowered form give the same run. *)
Theorem extract_table_header_case (soup : PageElement) (h1 h2 : str) (st : St) :
  lower h1 = lower h2 ->
  _extract_table_by_header soup h1 st = _extract_table_by_header soup h2 st.
Proof.
  intros Hlow. unfold _extract_table_by_header.
  assert (Hfind : find soup (header_matches h1) = find soup (header_matches h2)).
  { unfold find. apply find_ext. intros d. unfold header_matches. rewrite Hlow.
    reflexivity. }
  rewrite Hfind. reflexivity.
Qed.

Lemma contains_nil (s : str) : contains s [] = true.
Proof. destruct s; reflexivity. Qed.

(** X10.  With the empty header text every [th] passes the header test,
    so the extractor takes the first [th] of the document, whatever it
    reads. *)
Theorem extract_table_empty_header (soup : PageElement) (st : St) :
  (forall tag, header_matches [] tag = named (u "th") tag)
  /\ find soup (header_matches []) = find soup (named (u "th"))
  /\ (find soup (named (u "th")) = None ->
      _extract_table_by_header soup [] st = (Val [], st)).
Proof.
  assert (Htest : forall tag, header_matches [] tag = named (u "th") tag).
  { intros tag. unfold header_matches. cbn [lower lower_from].
    rewrite contains_nil, andb_true_r. reflexivity. }
  assert (Hfind : find soup (header_matches []) = find soup (named (u "th"))).
  { unfold find. apply find_ext. intros d. rewrite Htest. reflexivity. }
  split; [exact Htest|]. split; [exact Hfind|].
  intros Hnone. unfold _extract_table_by_header. rewrite Hfind, Hnone. reflexivity.
Qed.

(** X11.  A shorter query finds more: when the lowered header text [q]
    contains the lowered text [q'], every tag that passes the header
    test for [q] passes it for [q'].  In particular every header that
    passes for "Skills" passes for "Skill", the text the aggregator asks
    for. *)
Theorem header_matches_shorter_query (q q' : str) (tag : PageElement) :
  (exists l r, lower q = l ++ lower q' ++ r) ->
  header_matches q tag = true ->
  header_matches q' tag = true
  /\ (header_matches (u "Skills") tag = true -> header_matches (u "Skill") tag = true).
Proof.
  assert (Hgen : forall a b,
    (exists l r, lower a = l ++ lower b ++ r) ->
    header_matches a tag = true -> header_matches b tag = true).
  { intros a b (l & r & Hq). unfold header_matches.
    rewrite !andb_true_iff, !contains_spec. intros (Hth & l0 & r0 & Htext).
    split; [exact Hth|]. exists (l0 ++ l), (r ++ r0).
    rewrite Htext, Hq, <- !app_assoc. reflexivity. }
  intros Hq Hm. split; [exact (Hgen q q' Hq Hm)|].
  apply Hgen. exists [], (u "s"). reflexivity.
Qed.

(** *** Further properties: the aggregator *)

Lemma prefetch_item_step (item : ref) (g : GameItem) (st : St) :
  heap st !! item = Some g ->
  truthy (image_url g) = true ->
  exists st1,
    prefetch_item item tt st
    = (Val tt,
       set_heap
         (<[item := with_image g
                      (downloaded
                         (fst (session_get (request_url (image_url g)) 5 (net st))))]>
            (heap st)) st1)
    /\ heap st1 = heap st
    /\ exists ws, log st1 = log st ++ ws /\ Forall is_download_warning ws.
Proof.
  intros Hg Hurl. unfold prefetch_item, bind, deref. rewrite Hg, Hurl.
  rewrite fetch_image_bytes_run.
  destruct (session_get (request_url (image_url g)) 5 (net st)) as [[resp|e] w].
  - unfold set_image_data. cbn [heap set_net fst downloaded]. rewrite Hg.
    eexists. split; [reflexivity|]. split; [reflexivity|].
    exists []. cbn [log set_net]. rewrite app_nil_r. split; [reflexivity|constructor].
  - unfold set_image_data. cbn [heap set_net set_log fst downloaded]. rewrite Hg.
    eexists. split; [reflexivity|]. split; [reflexivity|].
    eexists. cbn [log set_log set_net]. split; [reflexivity|].
    repeat constructor. unfold is_download_warning. eauto.
Qed.

Lemma for_in_unit_progress {A} (P : St -> Prop) (Q : A -> Prop)
    (G : St -> A -> Prop) (R : St -> St -> Prop)
    (xs : list A) (body : A -> unit -> M St unit) :
  (forall st, R st st) ->
  (forall a b c, R a b -> R b c -> R a c) ->
  (forall a b x, R a b -> G a x -> G b x) ->
  (forall x st, Q x -> P st ->
     exists st', body x tt st = (Val tt, st') /\ P st' /\ G st' x /\ R st st') ->
  Forall Q xs ->
  forall st, P st ->
    exists st', for_in xs body tt st = (Val tt, st')
                /\ P st' /\ Forall (G st') xs /\ R st st'.
Proof.
  intros Hrefl Htrans Hmono Hbody. induction 1 as [|x xs Hx _ IH]; intros st HP; simpl.
  - exists st. auto.
  - destruct (Hbody x st Hx HP) as (st1 & Hrun & HP1 & HG1 & HR1).
    destruct (IH st1 HP1) as (st2 & Hrun2 & HP2 & HG2 & HR2).
    exists st2. unfold bind. rewrite Hrun. split; [exact Hrun2|]. split; [exact HP2|].
    split; [|eauto]. constructor; [eauto|exact HG2].
Qed.

Lemma prefetch_moves_refl respond (st : St) : prefetch_moves respond st st.
Proof.
  split; [|auto]. exists []. rewrite app_nil_r. split; [reflexivity|constructor].
Qed.

Lemma prefetch_moves_trans respond (a b c : St) :
  prefetch_moves respond a b -> prefetch_moves respond b c -> prefetch_moves respond a c.
Proof.
  intros [(ws1 & Hl1 & Hw1) Hg1] [(ws2 & Hl2 & Hw2) Hg2]. split; [|auto].
  exists (ws1 ++ ws2). rewrite Hl2, Hl1, <- app_assoc. split; [reflexivity|].
  apply Forall_app. auto.
Qed.

Lemma prefetch_item_progress respond (E H0 : list GameItem) (n : nat)
    (item : ref) (st : St) :
  prefetch_may_visit E n item ->
  prefetch_keeps E H0 n st ->
  exists st',
    prefetch_item item tt st = (Val tt, st')
    /\ prefetch_keeps E H0 n st'
    /\ (network_answers_by_address respond -> holds_download respond (heap st') item)
    /\ prefetch_moves respond st st'.
Proof.
  intros (Hn & g0 & Hg0 & Hurl0) (HE & Htake).
  assert (Hg : exists g, heap st !! item = Some g /\ without_image g = g0).
  { rewrite <- HE, list_lookup_fmap in Hg0.
    destruct (heap st !! item) as [g|]; [|discriminate].
    exists g. split; [reflexivity|]. simpl in Hg0. apply (inj Some) in Hg0. exact Hg0. }
  destruct Hg as (g & Hg & Hwi).
  assert (Hurl : truthy (image_url g) = true).
  { rewrite <- Hwi in Hurl0. exact Hurl0. }
  destruct (prefetch_item_step item g st Hg Hurl) as (st1 & Hrun & Hheap & Hlog).
  eexists. split; [exact Hrun|]. cbn [heap set_heap log].
  assert (Hlt : item < length (heap st)) by (eapply lookup_lt_Some; eauto).
  assert (Hnew : network_answers_by_address respond ->
                 holds_download respond
                   (<[item := with_image g
                                (downloaded
                                   (fst (session_get (request_url (image_url g)) 5
                                           (net st))))]> (heap st)) item).
  { intros Hdet. eexists. split; [apply list_lookup_insert_eq; exact Hlt|].
    cbn [image_data image_url with_image]. rewrite Hdet. reflexivity. }
  split; [|split; [|split]].
  - split.
    + cbn [heap set_heap]. rewrite list_fmap_insert. rewrite <- HE. apply list_insert_id.
      rewrite list_lookup_fmap, Hg. reflexivity.
    + cbn [heap set_heap]. rewrite take_insert_ge by exact Hn. exact Htake.
  - exact Hnew.
  - destruct Hlog as (ws & Hl & Hws). exists ws. unfold set_heap. cbn [log]. auto.
  - intros Hdet r (g1 & Hg1 & Hd1). cbn [heap set_heap].
    destruct (decide (r = item)) as [->|Hne]; [exact (Hnew Hdet)|].
    exists g1. rewrite list_lookup_insert_ne by auto. auto.
Qed.

Lemma prefetch_rows_progress respond (E H0 : list GameItem) (n : nat)
    (rows : list BuildRow) (st : St) :
  Forall (prefetch_may_visit E n) (flat_map items rows) ->
  prefetch_keeps E H0 n st ->
  exists st',
    for_in rows (fun row _ => for_in (items row) prefetch_item tt) tt st = (Val tt, st')
    /\ prefetch_keeps E H0 n st'
    /\ (network_answers_by_address respond ->
        Forall (holds_download respond (heap st')) (flat_map items rows))
    /\ prefetch_moves respond st st'.
Proof.
  intros Hvisit Hkeeps.
  destruct (for_in_unit_progress (prefetch_keeps E H0 n)
              (fun row => Forall (prefetch_may_visit E n) (items row))
              (fun st row => network_answers_by_address respond ->
                             Forall (holds_download respond (heap st)) (items row))
              (prefetch_moves respond) rows
              (fun row _ => for_in (items row) prefetch_item tt))
    with (st := st) as (st' & Hrun & Hk & HG & HR).
  - apply prefetch_moves_refl.
  - apply prefetch_moves_trans.
  - intros a b row [_ Hmono] HGa Hdet. eapply Forall_impl; [exact (HGa Hdet)|].
    intros r. apply Hmono, Hdet.
  - intros row st0 Hrow HP.
    destruct (for_in_unit_progress (prefetch_keeps E H0 n) (prefetch_may_visit E n)
                (fun st r => network_answers_by_address respond ->
                             holds_download respond (heap st) r)
                (prefetch_moves respond) (items row) prefetch_item)
      with (st := st0) as (st1 & Hrun1 & Hk1 & HG1 & HR1).
    + apply prefetch_moves_refl.
    + apply prefetch_moves_trans.
    + intros a b r [_ Hmono] HGa Hdet. apply Hmono; auto.
    + intros r st2 Hr HP2. apply prefetch_item_progress; auto.
    + exact Hrow.
    + exact HP.
    + exists st1. split; [exact Hrun1|]. split; [exact Hk1|]. split; [|exact HR1].
      intros Hdet. eapply Forall_impl; [exact HG1|]. intros r Hr. exact (Hr Hdet).
  - apply List.Forall_forall. intros row Hin. apply List.Forall_forall. intros r Hr.
    rewrite List.Forall_forall in Hvisit. apply Hvisit. apply in_flat_map. eauto.
  - exact Hkeeps.
  - exists st'. split; [exact Hrun|]. split; [exact Hk|]. split; [|exact HR].
    intros Hdet. apply List.Forall_forall. intros r Hr. apply in_flat_map in Hr.
    destruct Hr as (row & Hrow & Hr).
    rewrite List.Forall_forall in HG. specialize (HG row Hrow Hdet).
    rewrite List.Forall_forall in HG. apply HG, Hr.
Qed.

Lemma get_all_data_run_strong respond (soup : PageElement) (st : St) :
  let T := table_rows soup in
  let R1 := rows_items (T (u "Core Builds")) in
  let R2 := rows_items (T (u "Starter Items")) in
  let R3 := rows_items (T (u "Boots")) in
  let R4 := rows_items (T (u "Skill")) in
  let b1 := length (heap st) in
  let b2 := b1 + length R1 in
  let b3 := b2 + length R2 in
  let b4 := b3 + length R3 in
  let results :=
    [ (u "Core Builds", rows_from b1 (T (u "Core Builds")));
      (u "Starter Items", rows_from b2 (T (u "Starter Items")));
      (u "Boots", rows_from b3 (T (u "Boots")));
      (u "Skills", rows_from b4 (T (u "Skill"))) ] in
  exists st',
    get_all_data soup st = (Val results, st')
    /\ prefetch_keeps (without_image <$> (heap st ++ R1 ++ R2 ++ R3 ++ R4))
         (heap st) (length (heap st)) st'
    /\ (network_answers_by_address respond ->
        Forall (holds_download respond (heap st')) (flat_map items (flat_map snd results)))
    /\ prefetch_moves respond st st'.
Proof.
  intros T R1 R2 R3 R4 b1 b2 b3 b4 results. unfold get_all_data, bind.
  rewrite _extract_table_by_header_run. fold T R1.
  rewrite _extract_table_by_header_run. cbn [heap set_heap]. fold T R2.
  rewrite _extract_table_by_header_run. cbn [heap set_heap]. fold T R3.
  rewrite _extract_table_by_header_run. cbn [heap set_heap]. fold T R4.
  rewrite !length_app. fold b1 b2 b3 b4. fold results.
  repeat match goal with
         | |- context [set_heap ?a (set_heap ?b ?s)] =>
             change (set_heap a (set_heap b s)) with (set_heap a s)
         end.
  set (h4 := (((heap st ++ R1) ++ R2) ++ R3) ++ R4).
  assert (Hh4 : h4 = heap st ++ R1 ++ R2 ++ R3 ++ R4)
    by (unfold h4; rewrite <- !app_assoc; reflexivity).
  assert (Hitems : flat_map items (flat_map snd results)
                   = seq b1 (length (R1 ++ R2 ++ R3 ++ R4))).
  { unfold results. cbn [flat_map snd]. rewrite app_nil_r, !flat_map_app.
    rewrite !rows_from_items. fold R1 R2 R3 R4. rewrite !length_app.
    unfold b4, b3, b2. rewrite <- !seq_app. reflexivity. }
  destruct (prefetch_rows_progress respond (without_image <$> h4) (heap st)
              (length (heap st)) (flat_map snd results) (set_heap h4 st))
    as (st' & Hrun & Hk & HG & HR).
  - rewrite Hitems. apply Forall_seq. intros r Hr. split; [unfold b1 in Hr; lia|].
    destruct (lookup_in_block (fun g => truthy (image_url g) = true)
                (heap st) (R1 ++ R2 ++ R3 ++ R4) r) as (g & Hg & Hurl).
    + repeat (apply Forall_app; split); apply rows_items_have_src.
    + exact Hr.
    + exists (without_image g). rewrite Hh4, list_lookup_fmap, Hg. auto.
  - split; [reflexivity|]. cbn [heap set_heap]. rewrite Hh4. apply take_app_length.
  - exists st'. rewrite Hrun. split; [reflexivity|]. rewrite <- Hh4. split; [exact Hk|].
    split; [exact HG|]. destruct HR as [Hlog Hmono]. split; [exact Hlog|].
    intros Hdet r Hr. apply Hmono; [exact Hdet|].
    destruct Hr as (g & Hg & Hd). exists g. cbn [heap set_heap].
    split; [|exact Hd]. rewrite Hh4. apply lookup_app_l_Some. exact Hg.
Qed.

Lemma results_items_seq (soup : PageElement) (b1 : nat) :
  let T := table_rows soup in
  let R1 := rows_items (T (u "Core Builds")) in
  let R2 := rows_items (T (u "Starter Items")) in
  let R3 := rows_items (T (u "Boots")) in
  let R4 := rows_items (T (u "Skill")) in
  flat_map items
    (flat_map snd
       [ (u "Core Builds", rows_from b1 (T (u "Core Builds")));
         (u "Starter Items", rows_from (b1 + length R1) (T (u "Starter Items")));
         (u "Boots", rows_from (b1 + length R1 + length R2) (T (u "Boots")));
         (u "Skills",
          rows_from (b1 + length R1 + length R2 + length R3) (T (u "Skill"))) ])
  = seq b1 (length (R1 ++ R2 ++ R3 ++ R4)).
Proof.
  intros T R1 R2 R3 R4. cbn [flat_map snd]. rewrite app_nil_r, !flat_map_app.
  rewrite !rows_from_items. fold R1 R2 R3 R4. rewrite !length_app.
  rewrite <- !seq_app. reflexivity.
Qed.

(** X12.  [get_all_data] returns, and only adds to the store: the
    objects that were there are untouched.  The items of the result,
    read category after category and row after row, are exactly the
    references of the added objects, each once and in order, so no item
    object is shared between rows or categories.  The log grows by
    download warnings only. *)
Theorem get_all_data_adds_fresh_items (soup : PageElement) (st : St) :
  exists results st' ws,
    get_all_data soup st = (Val results, st')
    /\ take (length (heap st)) (heap st') = heap st
    /\ flat_map items (flat_map snd results)
       = seq (length (heap st)) (length (heap st') - length (heap st))
    /\ NoDup (flat_map items (flat_map snd results))
    /\ log st' = log st ++ ws
    /\ Forall (fun entry => exists url e, entry = (WARNING, Could_not_download url e)) ws.
Proof.
  destruct (get_all_data_run_strong (fun _ _ => Raise Timeout) soup st)
    as (st' & Hrun & [HE Htake] & _ & [(ws & Hlog & Hws) _]).
  cbv zeta in Hrun, HE.
  eexists. exists st', ws. split; [exact Hrun|]. split; [exact Htake|].
  assert (Hlen : length (heap st') - length (heap st)
                 = length (rows_items (table_rows soup (u "Core Builds"))
                           ++ rows_items (table_rows soup (u "Starter Items"))
                           ++ rows_items (table_rows soup (u "Boots"))
                           ++ rows_items (table_rows soup (u "Skill")))).
  { apply (f_equal length) in HE. rewrite !length_fmap, length_app in HE. lia. }
  rewrite Hlen. pose proof (results_items_seq soup (length (heap st))) as Hseq.
  cbv zeta in Hseq. rewrite Hseq.
  split; [reflexivity|]. split; [apply NoDup_seq|]. split; [exact Hlog|exact Hws].
Qed.

(** X13.  On a network that answers by address, every item of the
    result of [get_all_data] ends with the image bytes of its own
    address: the body of the response when the status is 200, nothing
    otherwise. *)
Theorem get_all_data_fills_image_data
    (respond : str -> Z -> result Response) (soup : PageElement) (st : St) :
  (forall url t w, fst (session_get url t w) = respond url t) ->
  exists results st',
    get_all_data soup st = (Val results, st')
    /\ forall category rows row item,
         In (category, rows) results -> In row rows -> In item (items row) ->
         exists g,
           heap st' !! item = Some g
           /\ image_data g
              = match respond (request_url (image_url g)) 5%Z with
                | Val resp =>
                    if Z.eqb (status_code resp) 200 then Some (content resp) else None
                | Raise _ => None
                end.
Proof.
  intros Hdet.
  destruct (get_all_data_run_strong respond soup st) as (st' & Hrun & _ & HG & _).
  cbv zeta in Hrun, HG. eexists. exists st'. split; [exact Hrun|].
  intros category rows row item Hcat Hrow Hitem.
  specialize (HG Hdet). rewrite List.Forall_forall in HG.
  apply (HG item). apply in_flat_map. exists row. split; [|exact Hitem].
  apply in_flat_map. exists (category, rows). auto.
Qed.

Lemma for_in_rows_without_items (rows : list BuildRow) (st : St) :
  Forall (fun row => items row = []) rows ->
  for_in rows (fun row _ => for_in (items row) prefetch_item tt) tt st = (Val tt, st).
Proof.
  induction 1 as [|row rows Hrow _ IH]; simpl; [reflexivity|].
  unfold bind. rewrite Hrow. simpl. exact IH.
Qed.

Lemma rows_from_without_items (rows : list PageElement) (base : nat) :
  Forall (fun row => items row = []) (rows_from base rows) ->
  rows_items rows = [].
Proof.
  intros H. apply length_zero_iff_nil.
  assert (Hflat : flat_map items (rows_from base rows) = []).
  { clear -H. induction H as [|row rs Hrow _ IH]; simpl; [reflexivity|].
    rewrite Hrow, IH. reflexivity. }
  rewrite rows_from_items in Hflat. apply (f_equal length) in Hflat.
  rewrite length_seq in Hflat. exact Hflat.
Qed.

(** X14.  No image, no request: when the rows the extractor returns for
    each of the four header texts hold no item (tables without images,
    or no table at all), [get_all_data] returns those rows and leaves
    the state exactly as it was: nothing is added to the store, no
    request is made and nothing is logged. *)
Theorem get_all_data_without_items (soup : PageElement) (st : St) :
  (forall header_text rows st',
      In header_text [u "Core Builds"; u "Starter Items"; u "Boots"; u "Skill"] ->
      _extract_table_by_header soup header_text st = (Val rows, st') ->
      Forall (fun row => items row = []) rows) ->
  exists results,
    get_all_data soup st = (Val results, st)
    /\ forall category rows,
         In (category, rows) results -> Forall (fun row => items row = []) rows.
Proof.
  intros Hnone.
  assert (HR : forall header_text,
    In header_text [u "Core Builds"; u "Starter Items"; u "Boots"; u "Skill"] ->
    rows_items (table_rows soup header_text) = []
    /\ Forall (fun row => items row = [])
         (rows_from (length (heap st)) (table_rows soup header_text))).
  { intros header_text Hin.
    assert (Hrows := Hnone header_text _ _ Hin
                       (_extract_table_by_header_run soup header_text st)).
    split; [eapply rows_from_without_items; exact Hrows|exact Hrows]. }
  destruct (HR (u "Core Builds")) as [HR1 HF1]; [cbn [In]; auto|].
  destruct (HR (u "Starter Items")) as [HR2 HF2]; [cbn [In]; auto|].
  destruct (HR (u "Boots")) as [HR3 HF3]; [cbn [In]; auto|].
  destruct (HR (u "Skill")) as [HR4 HF4]; [cbn [In]; auto 6|].
  unfold get_all_data, bind.
  rewrite _extract_table_by_header_run, HR1, set_heap_same.
  rewrite _extract_table_by_header_run, HR2, set_heap_same.
  rewrite _extract_table_by_header_run, HR3, set_heap_same.
  rewrite _extract_table_by_header_run, HR4, set_heap_same.
  rewrite for_in_rows_without_items.
  - eexists. split; [reflexivity|].
    intros category rows Hin. cbn [In] in Hin.
    destruct Hin as [[= <- <-]|[[= <- <-]|[[= <- <-]|[[= <- <-]|[]]]]]; assumption.
  - cbn [flat_map snd]. rewrite app_nil_r. repeat (apply Forall_app; split); assumption.
Qed.

(** *** Further properties: the interface *)






Lemma for_in_inv {S A V} (P : V -> S -> Prop) (Q : A -> Prop)
    (xs : list A) (body : A -> V -> M S V) :
  (forall x v s, Q x -> P v s -> exists v' s', body x v s = (Val v', s') /\ P v' s') ->
  Forall Q xs ->
  forall v s, P v s -> exists v' s', for_in xs body v s = (Val v', s') /\ P v' s'.
Proof.
  intros Hbody. induction 1 as [|x xs Hx _ IH]; intros v s HP; simpl.
  - exists v, s. auto.
  - destruct (Hbody x v s Hx HP) as (v1 & s1 & Hrun & HP1).
    unfold bind. rewrite Hrun. apply IH, HP1.
Qed.

Lemma add_photos_nil (a : AramBuildApp) : add_photos [] a = a.
Proof. destruct a. unfold add_photos. simpl. rewrite app_nil_r. reflexivity. Qed.

Lemma add_photos_add_photos (p q : list Photo) (a : AramBuildApp) :
  add_photos q (add_photos p a) = add_photos (p ++ q) a.
Proof. unfold add_photos. simpl. rewrite app_assoc. reflexivity. Qed.

Lemma render_item_run (h : list GameItem) (bg_color : str) (item : ref) (a : AramBuildApp) :
  item < length h ->
  exists w, render_item h bg_color item a = (Val w, add_photos (widget_images w) a).
Proof.
  intros Hlt. destruct (lookup_lt_is_Some_2 h item Hlt) as [g Hg].
  unfold render_item. rewrite Hg.
  assert (Hname : exists w,
    ret (Frame None (Some bg_color) [Label None (take 5 (name g)) (Some bg_color) None]) a
    = (Val w, add_photos (widget_images w) a)).
  { exists (Frame None (Some bg_color)
              [Label None (take 5 (name g)) (Some bg_color) None]).
    unfold ret. cbn [widget_images flat_map List.app]. rewrite add_photos_nil. reflexivity. }
  destruct (image_data g) as [data|]; [|exact Hname].
  destruct (truthy data); [|exact Hname].
  unfold try_except, bind, lift, photo_refs_append, ret.
  destruct (open_image data) as [tk_img|e].
  - destruct (Z.ltb 1 (count g));
      match goal with |- exists w, (Val ?x, _) = _ => exists x end; reflexivity.
  - cbn [is_Exception].
    exists (Frame None (Some bg_color) [Label None (u "?") (Some bg_color) None]).
    cbn [widget_images flat_map List.app]. rewrite add_photos_nil. reflexivity.
Qed.

Lemma render_items_run (h : list GameItem) (bg_color : str) (rs : list ref)
    (ws0 : list widget) (a : AramBuildApp) :
  Forall (fun r => r < length h) rs ->
  exists ws,
    for_in rs (fun item ws => w <- render_item h bg_color item ;; ret (ws ++ [w])) ws0 a
    = (Val (ws0 ++ ws), add_photos (flat_map widget_images ws) a).
Proof.
  intros Hrs. revert ws0 a. induction Hrs as [|r rs Hr _ IH]; intros ws0 a; simpl.
  - exists []. unfold ret. cbn [flat_map]. rewrite app_nil_r, add_photos_nil. reflexivity.
  - destruct (render_item_run h bg_color r a Hr) as (w & Hw).
    unfold bind at 1. unfold bind at 1. rewrite Hw. unfold ret at 1.
    destruct (IH (ws0 ++ [w]) (add_photos (widget_images w) a)) as (ws & Hws).
    exists (w :: ws). rewrite Hws, add_photos_add_photos, <- app_assoc. reflexivity.
Qed.

Lemma render_row_run (h : list GameItem) (row_data : BuildRow) (i : nat) (a : AramBuildApp) :
  Forall (fun r => r < length h) (items row_data) ->
  exists w, render_row h row_data i a = (Val w, add_photos (widget_images w) a).
Proof.
  intros Hrs. unfold render_row, bind. cbv zeta.
  destruct (render_items_run h (if Nat.eqb (i mod 2) 0 then u "#f3f4f6" else u "white")
              (items row_data) [] a Hrs) as (ws & Hws).
  unfold bind in Hws.
  rewrite Hws. unfold ret.
  match goal with |- exists w, (Val ?x, _) = _ => exists x end.
  cbn [widget_images flat_map List.app]. rewrite app_nil_r. reflexivity.
Qed.

Lemma render_items_length (h : list GameItem) (bg_color : str) (rs : list ref)
    (ws0 : list widget) (a : AramBuildApp) :
  Forall (fun r => r < length h) rs ->
  exists ws,
    for_in rs (fun item ws => w <- render_item h bg_color item ;; ret (ws ++ [w])) ws0 a
    = (Val (ws0 ++ ws), add_photos (flat_map widget_images ws) a)
    /\ length ws = length rs.
Proof.
  intros Hrs. revert ws0 a. induction Hrs as [|r rs Hr _ IH]; intros ws0 a; simpl.
  - exists []. unfold ret. cbn [flat_map]. rewrite app_nil_r, add_photos_nil. auto.
  - destruct (render_item_run h bg_color r a Hr) as (w & Hw).
    unfold bind at 1. unfold bind at 1. rewrite Hw. unfold ret at 1.
    destruct (IH (ws0 ++ [w]) (add_photos (widget_images w) a)) as (ws & Hws & Hlen).
    exists (w :: ws). rewrite Hws, add_photos_add_photos, <- app_assoc.
    split; [reflexivity|]. simpl. rewrite Hlen. reflexivity.
Qed.

Lemma render_row_shown (h : list GameItem) (row_data : BuildRow) (i : nat)
    (a : AramBuildApp) :
  Forall (fun r => r < length h) (items row_data) ->
  exists w,
    render_row h row_data i a = (Val w, add_photos (widget_images w) a)
    /\ row_shown row_data w.
Proof.
  intros Hrs. unfold render_row, bind. cbv zeta.
  destruct (render_items_length h (if Nat.eqb (i mod 2) 0 then u "#f3f4f6" else u "white")
              (items row_data) [] a Hrs) as (ws & Hws & Hlen).
  unfold bind in Hws. rewrite Hws. unfold ret.
  match goal with |- exists w, (Val ?x, _) = _ /\ _ => exists x end.
  split.
  - cbn [widget_images flat_map List.app]. rewrite app_nil_r. reflexivity.
  - unfold row_shown. eauto.
Qed.

Lemma tabs_add_keys (category : str) (w : widget) (ts : list (str * list widget)) :
  List.map fst (tabs_add category w ts) = List.map fst ts.
Proof.
  induction ts as [|kv ts IH]; simpl; [reflexivity|].
  destruct (str_eqb (fst kv) category); simpl; [reflexivity|]. rewrite IH. reflexivity.
Qed.

Lemma tabs_get_add_same (category : str) (w : widget) (ts : list (str * list widget))
    (ws : list widget) :
  tabs_get category ts = Some ws ->
  tabs_get category (tabs_add category w ts) = Some (ws ++ [w]).
Proof.
  unfold tabs_get. induction ts as [|kv ts IH]; simpl; [discriminate|].
  destruct (str_eqb (fst kv) category) eqn:Hk; simpl.
  - rewrite Hk. intros [= <-]. reflexivity.
  - rewrite Hk. exact IH.
Qed.

Lemma tabs_get_add_other (category c : str) (w : widget) (ts : list (str * list widget)) :
  c <> category ->
  tabs_get c (tabs_add category w ts) = tabs_get c ts.
Proof.
  intros Hne. unfold tabs_get. induction ts as [|kv ts IH]; simpl; [reflexivity|].
  destruct (str_eqb (fst kv) category) eqn:Hk; simpl.
  - destruct (str_eqb (fst kv) c) eqn:Hc; [|reflexivity].
    apply str_eqb_eq in Hk, Hc. congruence.
  - destruct (str_eqb (fst kv) c); [reflexivity|exact IH].
Qed.

Lemma displayed_tabs_add (category : str) (w : widget) (ts : list (str * list widget))
    (p : Photo) :
  In p (flat_map (fun kv => flat_map widget_images (snd kv)) (tabs_add category w ts)) ->
  In p (flat_map (fun kv => flat_map widget_images (snd kv)) ts) \/ In p (widget_images w).
Proof using Type.
  induction ts as [|kv ts IH]; simpl; [auto|].
  destruct (str_eqb (fst kv) category); simpl; rewrite !in_app_iff.
  - rewrite flat_map_app, in_app_iff. simpl. rewrite app_nil_r.
    intros [[H|H]|H]; [left; left; exact H|right; exact H|left; right; exact H].
  - intros [H|H]; [left; left; exact H|].
    destruct (IH H) as [H'|H']; [left; right; exact H'|right; exact H'].
Qed.

Lemma app_extends_refl (a : AramBuildApp) : app_extends a a.
Proof.
  unfold app_extends. repeat split; auto.
  intros category ws H. exists []. rewrite app_nil_r. exact H.
Qed.

Lemma app_extends_trans (a b c : AramBuildApp) :
  app_extends a b -> app_extends b c -> app_extends a c.
Proof.
  intros (H1 & H2 & H3 & H4 & H5 & H6 & H7) (G1 & G2 & G3 & G4 & G5 & G6 & G7).
  unfold app_extends. repeat split; try congruence; auto.
  intros category ws H. destruct (H6 _ _ H) as (x & Hx). destruct (G6 _ _ Hx) as (y & Hy).
  exists (x ++ y). rewrite app_assoc. exact Hy.
Qed.

(** A widget put in a tab after its photos were referenced. *)
Lemma tab_add_extends (category : str) (w : widget) (a : AramBuildApp) (ws : list widget) :
  tabs_get category (tabs a) = Some ws ->
  exists a',
    tab_add category w (add_photos (widget_images w) a) = (Val tt, a')
    /\ app_extends a a'
    /\ tabs_get category (tabs a') = Some (ws ++ [w])
    /\ forall c, c <> category -> tabs_get c (tabs a') = tabs_get c (tabs a).
Proof.
  intros Hws. eexists. split; [reflexivity|]. cbn [tabs add_photos].
  split; [|split].
  - unfold app_extends. cbn [champ_var fetch_btn status_lbl dialogs tabs add_photos].
    repeat split; auto.
    + apply tabs_add_keys.
    + intros c ws0 Hc. destruct (decide (c = category)) as [->|Hne].
      * rewrite Hws in Hc. injection Hc as <-. exists [w].
        apply tabs_get_add_same, Hws.
      * exists []. rewrite app_nil_r, tabs_get_add_other by exact Hne. exact Hc.
    + intros Hkept p Hp. unfold displayed in Hp. cbn [tabs photo_refs] in *.
      apply in_app_iff. destruct (displayed_tabs_add _ _ _ _ Hp) as [H|H]; [|auto].
      left. apply Hkept, H.
  - apply tabs_get_add_same, Hws.
  - intros c Hne. apply tabs_get_add_other, Hne.
Qed.

Lemma tab_add_plain (category : str) (w : widget) (a : AramBuildApp) (ws : list widget) :
  widget_images w = [] ->
  tabs_get category (tabs a) = Some ws ->
  exists a',
    tab_add category w a = (Val tt, a')
    /\ app_extends a a'
    /\ tabs_get category (tabs a') = Some (ws ++ [w])
    /\ forall c, c <> category -> tabs_get c (tabs a') = tabs_get c (tabs a).
Proof.
  intros Hw Hws. pose proof (tab_add_extends category w a ws Hws) as H.
  rewrite Hw, add_photos_nil in H. exact H.
Qed.

Lemma render_rows_run (h : list GameItem) (category : str) (rows : list BuildRow)
    (i : nat) (a : AramBuildApp) (ws : list widget) :
  tabs_get category (tabs a) = Some ws ->
  Forall (fun r => r < length h) (flat_map items rows) ->
  exists body a',
    for_in rows
      (fun row_data i =>
         w <- render_row h row_data i ;; tab_add category w ;;; ret (S i)) i a
    = (Val (i + length rows), a')
    /\ app_extends a a'
    /\ tabs_get category (tabs a') = Some (ws ++ body)
    /\ Forall2 row_shown rows body
    /\ forall c, c <> category -> tabs_get c (tabs a') = tabs_get c (tabs a).
Proof.
  revert i a ws. induction rows as [|row_data rows IH]; intros i a ws Hws Hvalid.
  - exists [], a. simpl. unfold ret. rewrite app_nil_r, Nat.add_0_r.
    split; [reflexivity|]. split; [apply app_extends_refl|]. split; [exact Hws|].
    split; [constructor|]. auto.
  - cbn [flat_map] in Hvalid. apply Forall_app in Hvalid. destruct Hvalid as [Hrow Hrest].
    destruct (render_row_shown h row_data i a Hrow) as (w & Hw & Hshown).
    destruct (tab_add_extends category w a ws Hws) as (a1 & Hadd & Hext1 & Hget1 & Hoth1).
    destruct (IH (S i) a1 (ws ++ [w]) Hget1 Hrest)
      as (body & a2 & Hrun & Hext2 & Hget2 & Hbody & Hoth2).
    exists (w :: body), a2. cbn [for_in]. unfold bind at 1. unfold bind at 1.
    rewrite Hw. unfold bind at 1. rewrite Hadd. unfold ret at 1. rewrite Hrun.
    split; [simpl; f_equal; f_equal; lia|].
    split; [eapply app_extends_trans; eauto|].
    split; [rewrite Hget2, <- app_assoc; reflexivity|].
    split; [constructor; assumption|].
    intros c Hne. rewrite Hoth2, Hoth1 by exact Hne. reflexivity.
Qed.

Lemma render_category_run (h : list GameItem) (kv : str * list BuildRow)
    (a : AramBuildApp) (ws : list widget) :
  tabs_get (fst kv) (tabs a) = Some ws ->
  Forall (fun r => r < length h) (flat_map items (snd kv)) ->
  exists body a',
    render_category h kv tt a = (Val tt, a')
    /\ app_extends a a'
    /\ tabs_get (fst kv) (tabs a') = Some (ws ++ header_frame :: body)
    /\ rows_shown (snd kv) body
    /\ forall c, c <> fst kv -> tabs_get c (tabs a') = tabs_get c (tabs a).
Proof.
  destruct kv as [category rows]. cbn [fst snd]. intros Hws Hvalid.
  unfold render_category. unfold bind at 1. unfold tab_frame. rewrite Hws.
  destruct (tab_add_plain category header_frame a ws eq_refl Hws)
    as (a1 & Hadd & Hext1 & Hget1 & Hoth1).
  unfold bind at 1. rewrite Hadd.
  destruct rows as [|row_data rows].
  - cbn [truthy negb].
    destruct (tab_add_plain category (Label None (u "No data found.") None None) a1
                (ws ++ [header_frame]) eq_refl Hget1)
      as (a2 & Hadd2 & Hext2 & Hget2 & Hoth2).
    exists [Label None (u "No data found.") None None], a2.
    split; [exact Hadd2|]. split; [eapply app_extends_trans; eauto|].
    split; [rewrite Hget2, <- app_assoc; reflexivity|].
    split; [reflexivity|].
    intros c Hne. rewrite Hoth2, Hoth1 by exact Hne. reflexivity.
  - cbn [truthy negb].
    destruct (render_rows_run h category (row_data :: rows) 0 a1 (ws ++ [header_frame])
                Hget1 Hvalid) as (body & a2 & Hrun & Hext2 & Hget2 & Hbody & Hoth2).
    exists body, a2. unfold bind at 1. rewrite Hrun. unfold ret.
    split; [reflexivity|]. split; [eapply app_extends_trans; eauto|].
    split; [rewrite Hget2, <- app_assoc; reflexivity|].
    split; [exact Hbody|].
    intros c Hne. rewrite Hoth2, Hoth1 by exact Hne. reflexivity.
Qed.

Lemma update_loop_run (h : list GameItem) (results : list (str * list BuildRow))
    (a : AramBuildApp) :
  NoDup (List.map fst results) ->
  Forall (fun kv => exists ws, tabs_get (fst kv) (tabs a) = Some ws) results ->
  Forall (fun r => r < length h) (flat_map items (flat_map snd results)) ->
  exists a',
    for_in results (render_category h) tt a = (Val tt, a')
    /\ app_extends a a'
    /\ (forall category rows ws,
          In (category, rows) results ->
          tabs_get category (tabs a) = Some ws ->
          exists body,
            tabs_get category (tabs a') = Some (ws ++ header_frame :: body)
            /\ rows_shown rows body)
    /\ (forall c, ~ In c (List.map fst results) ->
        tabs_get c (tabs a') = tabs_get c (tabs a)).
Proof.
  revert a. induction results as [|kv results IH]; intros a Hnd Hpresent Hvalid.
  - exists a. split; [reflexivity|]. split; [apply app_extends_refl|].
    split; [intros ? ? ? []|auto].
  - cbn [List.map] in Hnd. apply NoDup_cons in Hnd. destruct Hnd as [Hfresh Hnd].
    inversion Hpresent as [|? ? (ws & Hws) Hpresent']; subst.
    cbn [flat_map] in Hvalid. rewrite flat_map_app in Hvalid.
    apply Forall_app in Hvalid. destruct Hvalid as [Hkv Hrest].
    destruct (render_category_run h kv a ws Hws Hkv)
      as (body & a1 & Hrun1 & Hext1 & Hget1 & Hshown1 & Hoth1).
    destruct (IH a1 Hnd) as (a2 & Hrun2 & Hext2 & Hcont2 & Hoth2).
    { eapply Forall_impl; [exact Hpresent'|]. intros kv' (ws' & Hws').
      destruct Hext1 as (_ & _ & _ & _ & _ & Hgrow & _).
      destruct (Hgrow _ _ Hws') as (added & Hadded). eauto. }
    { exact Hrest. }
    exists a2. cbn [for_in]. unfold bind at 1. rewrite Hrun1.
    split; [exact Hrun2|]. split; [eapply app_extends_trans; eauto|]. split.
    + intros category rows ws0 Hin Hws0. destruct Hin as [Heq|Hin].
      * subst kv. cbn [fst snd] in *. rewrite Hws in Hws0. injection Hws0 as <-.
        exists body. split; [|exact Hshown1].
        rewrite Hoth2; [exact Hget1|].
        intros Hc. apply Hfresh. apply list_elem_of_In. exact Hc.
      * assert (Hne : category <> fst kv).
        { intros ->. apply Hfresh. apply list_elem_of_In.
          apply in_map_iff. exists (fst kv, rows). auto. }
        apply (Hcont2 category rows ws0 Hin). rewrite Hoth1 by exact Hne. exact Hws0.
    + intros c Hc. cbn [List.map In] in Hc.
      rewrite Hoth2 by (intros Hin; apply Hc; right; exact Hin).
      apply Hoth1. intros ->. apply Hc. left. reflexivity.
Qed.


Lemma worker_thread_update_inv (url : str) (st : St)
    (results : list (str * list BuildRow)) (st' : St) :
  _worker_thread url st = (Val (_update_ui results), st') ->
  exists soup st1, get_all_data soup st1 = (Val results, st').
Proof.
  intros Hw. rewrite worker_thread_run in Hw.
  destruct (fetch_page url st) as [[[soup|]|e] st1]; try discriminate.
  destruct (negb _ && negb _); [discriminate|].
  destruct (get_all_data soup st1) as [[results0|e] st2] eqn:Hgad; [|discriminate].
  injection Hw as <- <-. eauto.
Qed.

Lemma get_all_data_results_wf (soup : PageElement) (st : St)
    (results : list (str * list BuildRow)) (st' : St) :
  get_all_data soup st = (Val results, st') ->
  List.map fst results = [u "Core Builds"; u "Starter Items"; u "Boots"; u "Skills"]
  /\ Forall (fun r => r < length (heap st')) (flat_map items (flat_map snd results)).
Proof.
  intros Hgad.
  destruct (get_all_data_run_strong (fun _ _ => Raise Timeout) soup st)
    as (st2 & Hrun & [HE _] & _).
  cbv zeta in Hrun, HE. rewrite Hrun in Hgad. injection Hgad as <- <-.
  split; [reflexivity|].
  pose proof (results_items_seq soup (length (heap st))) as Hseq. cbv zeta in Hseq.
  rewrite Hseq. apply Forall_seq. intros r Hr.
  apply (f_equal length) in HE. rewrite !length_fmap, length_app in HE. lia.
Qed.

Lemma tabs_get_cleared (c : str) (ts : list (str * list widget)) :
  In c (List.map fst ts) ->
  tabs_get c (List.map (fun kv => (fst kv, [])) ts) = Some [].
Proof.
  unfold tabs_get. induction ts as [|kv ts IH]; simpl; [intros []|].
  destruct (str_eqb (fst kv) c) eqn:Hk; [reflexivity|].
  intros [Heq|Hin]; [|exact (IH Hin)].
  subst c. assert (str_eqb (fst kv) (fst kv) = true) by (apply str_eqb_eq; reflexivity).
  congruence.
Qed.

Lemma four_categories_distinct :
  NoDup [u "Core Builds"; u "Starter Items"; u "Boots"; u "Skills"].
Proof.
  repeat (apply NoDup_cons; split;
          [rewrite ?elem_of_cons, elem_of_nil; intros H;
           repeat (destruct H as [H|H]; [discriminate H|]); exact H|]).
  apply NoDup_nil. exact I.
Qed.

(** X17.  One search, from click to callback, in a window that has the
    four tabs: when the click starts the worker and the worker returns
    a callback, the callback returns with the button enabled again and
    the status text of that callback, the window keeps its four tabs
    and its entry, and every photo on display is referenced.  After
    [_update_ui] each tab holds the header and the rows of its category
    and no dialog is shown; after the two failure callbacks the tabs
    are empty and one dialog is shown. *)
Theorem search_cycle (a : AramBuildApp) (st : St) (url : str) (a1 : AramBuildApp)
    (cb : callback) (st' : St) :
  List.map fst (tabs a) = [u "Core Builds"; u "Starter Items"; u "Boots"; u "Skills"] ->
  on_fetch_click a = (Val (Some url), a1) ->
  _worker_thread url st = (Val cb, st') ->
  exists a2,
    run_callback (heap st') cb a1 = (Val tt, a2)
    /\ fetch_btn a2 = NORMAL
    /\ fst (status_lbl a2) = status_text cb
    /\ List.map fst (tabs a2) = List.map fst (tabs a)
    /\ champ_var a2 = champ_var a
    /\ photos_kept a2
    /\ match cb with
       | _update_ui results =>
           dialogs a2 = dialogs a
           /\ forall category rows,
                In (category, rows) results ->
                exists body,
                  tabs_get category (tabs a2) = Some (header_frame :: body)
                  /\ rows_shown rows body
       | _ =>
           length (dialogs a2) = S (length (dialogs a))
           /\ Forall (fun kv => snd kv = []) (tabs a2)
       end.
Proof.
  intros Htabs Hclick Hworker.
  unfold on_fetch_click in Hclick.
  destruct (negb (truthy (strip (champ_var a)))); [discriminate|].
  injection Hclick as _ <-.
  set (a1 := {| champ_var := champ_var a; fetch_btn := DISABLED;
                status_lbl := _; photo_refs := []; tabs := _; dialogs := dialogs a |}).
  assert (Hkeys1 : List.map fst (tabs a1) = List.map fst (tabs a)).
  { unfold a1. cbn [tabs]. rewrite List.map_map. reflexivity. }
  assert (Hempty1 : Forall (fun kv : str * list widget => snd kv = []) (tabs a1)).
  { unfold a1. cbn [tabs]. apply List.Forall_forall. intros kv Hkv.
    apply in_map_iff in Hkv. destruct Hkv as (kv0 & <- & _). reflexivity. }
  assert (Hkept1 : photos_kept a1).
  { intros p Hp. unfold displayed, a1 in Hp. cbn [tabs] in Hp.
    apply in_flat_map in Hp. destruct Hp as (kv & Hkv & Hp).
    apply in_map_iff in Hkv. destruct Hkv as (kv0 & <- & _). destruct Hp. }
  destruct cb as [| |results].
  - eexists. split; [reflexivity|].
    cbn [fetch_btn status_lbl champ_var dialogs tabs photo_refs fst status_text].
    split; [reflexivity|]. split; [reflexivity|]. split; [exact Hkeys1|].
    split; [reflexivity|]. split; [exact Hkept1|].
    split; [rewrite length_app; simpl; lia|exact Hempty1].
  - eexists. split; [reflexivity|].
    cbn [fetch_btn status_lbl champ_var dialogs tabs photo_refs fst status_text].
    split; [reflexivity|]. split; [reflexivity|]. split; [exact Hkeys1|].
    split; [reflexivity|]. split; [exact Hkept1|].
    split; [rewrite length_app; simpl; lia|exact Hempty1].
  - destruct (worker_thread_update_inv url st results st' Hworker) as (soup & st1 & Hgad).
    destruct (get_all_data_results_wf soup st1 results st' Hgad) as [Hcats Hvalid].
    assert (Hpresent : forall c, In c (List.map fst results) ->
                                 tabs_get c (tabs a1) = Some []).
    { intros c Hc. unfold a1. cbn [tabs]. apply tabs_get_cleared.
      rewrite Htabs, <- Hcats. exact Hc. }
    destruct (update_loop_run (heap st') results a1)
      as (a2 & Hrun & (H1 & H2 & H3 & H4 & H5 & H6 & H7) & Hcont & Hoth).
    + rewrite Hcats. apply four_categories_distinct.
    + apply List.Forall_forall. intros kv Hkv. exists [].
      apply Hpresent. apply in_map. exact Hkv.
    + exact Hvalid.
    + cbn [run_callback]. unfold update_ui. unfold bind at 1. rewrite Hrun.
      eexists. split; [reflexivity|].
      cbn [fetch_btn status_lbl champ_var dialogs tabs photo_refs fst status_text].
      split; [reflexivity|]. split; [reflexivity|].
      split; [rewrite H5; exact Hkeys1|]. split; [exact H1|].
      split; [exact (H7 Hkept1)|]. split; [exact H4|].
      intros category rows Hin.
      destruct (Hcont category rows [] Hin) as (body & Hbody & Hshown).
      { apply Hpresent. apply in_map_iff. exists (category, rows). auto. }
      exists body. auto.
Qed.

(** *** Further properties: the image fetcher *)

(** X18.  A protocol-relative address and its [https:] form are fetched
    alike: same request, same result, same warning in the log. *)
Theorem fetch_image_bytes_https_form (url : str) (st : St) :
  startswith url (u "//") = true ->
  fetch_image_bytes url st = fetch_image_bytes (u "https:" ++ url) st.
Proof.
  intros Hrel. rewrite !fetch_image_bytes_run.
  assert (Hu : request_url url = u "https:" ++ url)
    by (unfold request_url; rewrite Hrel; reflexivity).
  assert (Hh : request_url (u "https:" ++ url) = u "https:" ++ url) by reflexivity.
  rewrite Hu, Hh. reflexivity.
Qed.

End Program.

(** ** The properties on the sample inputs *)

Module SampleRuns.
Import Sample.

#[local] Abbreviation item_details :=
  (_extract_item_details unicode_decimal int_max_str_digits World).
#[local] Abbreviation row_step :=
  (extract_row unicode_decimal int_max_str_digits World).
#[local] Abbreviation table_by_header :=
  (_extract_table_by_header unicode_lower unicode_decimal int_max_str_digits World).
#[local] Abbreviation all_data :=
  (get_all_data unicode_lower unicode_decimal int_max_str_digits World session_get).
#[local] Abbreviation worker :=
  (_worker_thread unicode_lower unicode_decimal int_max_str_digits World session_get
     html_parser).
#[local] Abbreviation image_bytes := (fetch_image_bytes World session_get).

(** The address of a champion that does not exist answers 404, and the
    worker reports a connection error. *)
Lemma worker_thread_404_witness :
  exists st',
    worker (u "https://op.gg/lol/modes/aram/nobody/build") start
    = (Val _handle_error, st').
Proof.
  destruct (worker_thread_404_is_connection_error
              unicode_lower unicode_decimal int_max_str_digits World session_get
              html_parser (u "https://op.gg/lol/modes/aram/nobody/build") start
              {| status_code := 404; text := u "Not Found"; content := [] |} 1
              eq_refl eq_refl) as (st' & Hrun & _).
  exists st'. exact Hrun.
Defined.

(** A badge reading "3" gives the count 3. *)
Lemma extract_item_details_count_witness :
  exists g,
    item_details (stacked_img "3") start = (Val 0, set_heap [g] start)
    /\ count g = 3%Z.
Proof.
  destruct (extract_item_details_count unicode_decimal int_max_str_digits World
              (stacked_img "3") start) as (g & Hrun & _ & Hbadge).
  exists g. split; [exact Hrun|].
  destruct (Hbadge _ eq_refl) as (_ & Hdigits & _).
  apply (Hdigits (u "3")).
  - reflexivity.
  - discriminate.
  - repeat constructor.
  - right. unfold int_max_str_digits. simpl. lia.
Defined.

(** A badge reading "0" gives the count 0. *)
Lemma extract_item_details_count_sign_witness :
  exists g,
    item_details (stacked_img "0") start = (Val 0, set_heap [g] start)
    /\ count g = 0%Z.
Proof.
  destruct (extract_item_details_count_sign unicode_decimal int_max_str_digits World
              (stacked_img "0") start) as (g & Hrun & _ & Hval & _).
  exists g. split; [exact Hrun|].
  apply (Hval _ 0%Z eq_refl). reflexivity.
Defined.

(** C8, as stated, fails: the image under a badge reading "0" becomes
    an item whose count is 0, and the table extractor returns it. *)
Lemma count_zero_badge_not_positive :
  (exists g st',
      item_details (stacked_img "0") start = (Val 0, st')
      /\ heap st' !! 0 = Some g /\ ~ (0 < count g)%Z) /\
  (exists row rows g st',
      table_by_header (page "0") (u "Core Builds") start = (Val (row :: rows), st')
      /\ In 0 (items row) /\ heap st' !! 0 = Some g /\ ~ (0 < count g)%Z).
Proof.
  split.
  - do 2 eexists. split; [vm_compute; reflexivity|]. split; [reflexivity|].
    vm_compute. discriminate.
  - do 4 eexists. split; [vm_compute; reflexivity|]. split; [left; reflexivity|].
    split; [reflexivity|]. vm_compute. discriminate.
Qed.

(** A row of two cells is dropped, a row of three empty cells is kept
    with the three sentinels. *)
Lemma extract_row_cells_witness :
  row_step two_cells [] start = (Val [], start) /\
  exists b st',
    row_step three_cells [] start = (Val [b], st')
    /\ pick_rate b = u "N/A" /\ games b = u "N/A" /\ win_rate b = u "N/A".
Proof.
  split.
  - apply (extract_row_cells unicode_decimal int_max_str_digits World two_cells [] start).
    vm_compute. lia.
  - destruct (extract_row_cells unicode_decimal int_max_str_digits World
                three_cells [] start) as (_ & Hkept & _).
    destruct Hkept as (b & st' & Hrun & Hpick & Hgames & Hwin); [vm_compute; lia|].
    exists b, st'. split; [exact Hrun|].
    split; [eapply Hpick; reflexivity|].
    split; [eapply Hgames; reflexivity|eapply Hwin; reflexivity].
Defined.

(** The extractor returns the empty list for "Boots" on the sample
    page, which has no such header, on a header cell outside any table,
    and on a table without body. *)
Lemma extract_table_header_selection_witness :
  table_by_header (page "3") (u "Boots") start = (Val [], start)
  /\ table_by_header orphan_header (u "Boots") start = (Val [], start)
  /\ table_by_header bodiless_table (u "Boots") start = (Val [], start).
Proof.
  split; [|split].
  - apply (extract_table_header_selection unicode_lower unicode_decimal
             int_max_str_digits World (page "3") (u "Boots") start).
    reflexivity.
  - destruct (extract_table_header_selection unicode_lower unicode_decimal
                int_max_str_digits World orphan_header (u "Boots") start)
      as (_ & _ & _ & Hno_table & _).
    eapply Hno_table; reflexivity.
  - destruct (extract_table_header_selection unicode_lower unicode_decimal
                int_max_str_digits World bodiless_table (u "Boots") start)
      as (_ & _ & _ & _ & Hno_body & _).
    eapply Hno_body; reflexivity.
Defined.

(** On the sample page the aggregator maps Boots to the empty list. *)
Lemma get_all_data_categories_witness :
  exists results st',
    all_data (page "3") start = (Val results, st')
    /\ results_get results (u "Boots") = Some [].
Proof.
  destruct (get_all_data_categories unicode_lower unicode_decimal int_max_str_digits
              World session_get (page "3") start)
    as (results & st' & Hrun & _ & _ & _ & Hboots).
  exists results, st'. split; [exact Hrun|]. apply Hboots. reflexivity.
Defined.

(** A protocol-relative address is fetched over https and its bytes
    are returned; a 403 and a refused connection give nothing. *)
Lemma fetch_image_bytes_contract_witness :
  image_bytes (u "//cdn.example/boots.png") start
  = (Val (Some [Byte.x89; Byte.x50]), set_net 1 start)
  /\ image_bytes (u "https://cdn.example/gone.png") start
     = (Val None, set_net 1 start)
  /\ image_bytes (u "//nowhere.example/x.png") start
     = (Val None,
        set_log [(WARNING,
                  Could_not_download (u "https://nowhere.example/x.png") ConnectionError)]
          (set_net 1 start)).
Proof.
  split; [|split].
  - apply (proj1 (proj2 (proj2
             (fetch_image_bytes_contract World session_get
                (u "//cdn.example/boots.png") start)))
             {| status_code := 200; text := []; content := [Byte.x89; Byte.x50] |} 1).
    + reflexivity.
    + reflexivity.
  - apply (proj1 (proj2 (proj2 (proj2
             (fetch_image_bytes_contract World session_get
                (u "https://cdn.example/gone.png") start))))
             {| status_code := 403; text := u "Forbidden"; content := [Byte.x46] |} 1).
    + reflexivity.
    + discriminate.
  - apply (proj1 (proj2 (proj2 (proj2 (proj2
             (fetch_image_bytes_contract World session_get
                (u "//nowhere.example/x.png") start)))))
             ConnectionError 1).
    reflexivity.
Defined.

(** The first item of the sample page has a non-empty image address. *)
Lemma extracted_items_have_image_source_witness :
  exists rows st' g,
    table_by_header (page "3") (u "core builds") start = (Val rows, st')
    /\ heap st' !! 0 = Some g /\ image_url g <> [].
Proof.
  destruct (extracted_items_have_image_source unicode_lower unicode_decimal
              int_max_str_digits World session_get (page "3") (u "core builds") start)
    as ((rows & st' & Hrun & Hitems) & _).
  assert (Hrow : exists row, In row rows /\ In 0 (items row)).
  { vm_compute in Hrun. injection Hrun as <- _. eexists. split; [left; reflexivity|].
    left. reflexivity. }
  destruct Hrow as (row & Hin & H0).
  destruct (Hitems row 0 Hin H0) as (g & Hg & Hne & _).
  exists rows, st', g. auto.
Defined.

End SampleRuns.

(** ** The further properties on the sample inputs *)

Module FurtherRuns.
Import Sample.

#[local] Abbreviation normalize := (normalize_champion_name unicode_lower).
#[local] Abbreviation page_of := (fetch_page World session_get html_parser).
#[local] Abbreviation worker :=
  (_worker_thread unicode_lower unicode_decimal int_max_str_digits World session_get
     html_parser).
#[local] Abbreviation site_worker :=
  (_worker_thread unicode_lower unicode_decimal int_max_str_digits World site_get
     site_parser).
#[local] Abbreviation table_by_header :=
  (_extract_table_by_header unicode_lower unicode_decimal int_max_str_digits World).
#[local] Abbreviation all_data :=
  (get_all_data unicode_lower unicode_decimal int_max_str_digits World session_get).
#[local] Abbreviation image_bytes := (fetch_image_bytes World session_get).
#[local] Abbreviation click := (on_fetch_click unicode_lower Photo).

(** Two ASCII texts normalise piece by piece. *)
Lemma normalize_champion_name_ascii_witness :
  normalize (u "Lee " ++ u "Sin") = normalize (u "Lee ") ++ normalize (u "Sin").
Proof.
  apply (normalize_champion_name_ascii unicode_lower (u "Lee ") (u "Sin")); reflexivity.
Defined.


(** A 404 is among the statuses reported as a connection error. *)
Lemma worker_thread_connection_error_iff_witness :
  exists st', worker nobody_url start = (Val _handle_error, st').
Proof.
  apply (worker_thread_connection_error_iff unicode_lower unicode_decimal
           int_max_str_digits World session_get html_parser nobody_url start).
  right. left. exists not_found, 1. split; [reflexivity|]. simpl. lia.
Defined.

(** A page that is fetched but names no category is reported as not
    found, after one request. *)
Lemma worker_thread_not_found_iff_witness :
  worker (u "https://cdn.example/boots.png") start
  = (Val _handle_not_found,
     set_log [(INFO, Requesting (u "https://cdn.example/boots.png"))] (set_net 1 start)).
Proof.
  apply (worker_thread_not_found_iff unicode_lower unicode_decimal
           int_max_str_digits World session_get html_parser).
  exists {| status_code := 200; text := []; content := [Byte.x89; Byte.x50] |}, 1,
    (BeautifulSoup_object [Text NavigableString []]).
  split; [reflexivity|]. split; [simpl; lia|]. repeat split; reflexivity.
Defined.

(** The build page of the sample site leads to [_update_ui]. *)
Lemma worker_thread_update_ui_witness :
  exists results st', site_worker velkoz_url start = (Val (_update_ui results), st').
Proof.
  destruct (worker_thread_update_ui unicode_lower unicode_decimal int_max_str_digits
              World site_get site_parser velkoz_url start) as [Hupdate _].
  destruct (Hupdate (page "3")
              (set_log [(INFO, Requesting velkoz_url)] (set_net 1 start)))
    as (results & st' & Hw & _).
  - reflexivity.
  - left. reflexivity.
  - exists results, st'. exact Hw.
Defined.

(** With a parser that rejects the page, the worker raises and no
    callback is scheduled. *)
Lemma worker_thread_raises_iff_witness :
  _worker_thread unicode_lower unicode_decimal int_max_str_digits World site_get
    rejecting_parser velkoz_url start
  = (Raise ParserRejectedMarkup,
     set_log [(INFO, Requesting velkoz_url)] (set_net 1 start)).
Proof.
  apply (worker_thread_raises_iff unicode_lower unicode_decimal int_max_str_digits
           World site_get rejecting_parser).
  split; [reflexivity|]. exists 1. split; [reflexivity|]. right.
  exists {| status_code := 200; text := u "velkoz"; content := [] |}.
  split; [reflexivity|]. split; [simpl; lia|reflexivity].
Defined.

(** The header text in capitals selects the same table. *)
Lemma extract_table_header_case_witness :
  table_by_header (page "3") (u "CORE BUILDS") start
  = table_by_header (page "3") (u "Core Builds") start.
Proof.
  apply (extract_table_header_case unicode_lower unicode_decimal int_max_str_digits
           World (page "3") (u "CORE BUILDS") (u "Core Builds") start).
  reflexivity.
Defined.

(** A row outside any table has no [th]: the empty header text finds
    nothing. *)
Lemma extract_table_empty_header_witness :
  table_by_header two_cells [] start = (Val [], start).
Proof.
  apply (extract_table_empty_header unicode_lower unicode_decimal int_max_str_digits
           World two_cells start).
  reflexivity.
Defined.

(** The header of the text page, "Skills", passes the test for "Skill". *)
Lemma header_matches_shorter_query_witness :
  header_matches unicode_lower (u "Skill")
    {| this := el "th" [] [txt "Skills"]; parents := [] |} = true.
Proof.
  refine (proj1 (header_matches_shorter_query unicode_lower (u "Skills") (u "Skill")
                   {| this := el "th" [] [txt "Skills"]; parents := [] |} _ _)).
  - exists [], (u "s"). reflexivity.
  - reflexivity.
Defined.

(** On the sample network the first item of the sample page ends with
    the bytes of its image. *)
Lemma get_all_data_fills_image_data_witness :
  exists results st' g,
    all_data (page "3") start = (Val results, st')
    /\ heap st' !! 0 = Some g /\ image_data g = Some [Byte.x89; Byte.x50].
Proof.
  destruct (get_all_data_fills_image_data unicode_lower unicode_decimal
              int_max_str_digits World session_get
              (fun url t => fst (session_get url t 0)) (page "3") start)
    as (results & st' & Hrun & Hitems).
  - intros url t w. reflexivity.
  - assert (Hrow : exists category rows row,
              In (category, rows) results /\ In row rows /\ In 0 (items row)).
    { vm_compute in Hrun. injection Hrun as <- _.
      do 3 eexists. split; [left; reflexivity|]. split; [left; reflexivity|].
      left. reflexivity. }
    destruct Hrow as (category & rows & row & Hc & Hr & Hi).
    destruct (Hitems category rows row 0 Hc Hr Hi) as (g & Hg & Hd).
    exists results, st', g. split; [exact Hrun|]. split; [exact Hg|].
    rewrite Hd. vm_compute in Hrun. injection Hrun as _ <-.
    vm_compute in Hg. injection Hg as <-. reflexivity.
Defined.

(** The text page has rows but no image: nothing is requested. *)
Lemma get_all_data_without_items_witness :
  exists results,
    all_data text_page start = (Val results, start)
    /\ exists row, results_get results (u "Skills") = Some [row].
Proof.
  destruct (get_all_data_without_items unicode_lower unicode_decimal
              int_max_str_digits World session_get text_page start)
    as (results & Hrun & _).
  - intros header_text rows st' Hin Hex. cbn [In] in Hin.
    destruct Hin as [<-|[<-|[<-|[<-|[]]]]]; vm_compute in Hex;
      injection Hex as <- _; repeat constructor.
  - exists results. split; [exact Hrun|].
    vm_compute in Hrun. injection Hrun as <-. eexists. reflexivity.
Defined.



(** One search on the sample site, from the window as it starts. *)
Lemma search_cycle_witness :
  exists a1 cb st' a2,
    click (app_init Photo) = (Val (Some velkoz_url), a1)
    /\ site_worker velkoz_url start = (Val cb, st')
    /\ run_callback Photo open_image (heap st') cb a1 = (Val tt, a2)
    /\ fetch_btn Photo a2 = NORMAL.
Proof.
  assert (Hclick : exists a1, click (app_init Photo) = (Val (Some velkoz_url), a1))
    by (eexists; reflexivity).
  destruct Hclick as (a1 & Hclick).
  assert (Hworker : exists cb st', site_worker velkoz_url start = (Val cb, st'))
    by (vm_compute; do 2 eexists; reflexivity).
  destruct Hworker as (cb & st' & Hworker).
  destruct (search_cycle unicode_lower unicode_decimal int_max_str_digits World
              site_get site_parser Photo open_image
              (app_init Photo) start velkoz_url a1 cb st' eq_refl Hclick Hworker)
    as (a2 & Hrun & Hbtn & _).
  exists a1, cb, st', a2. auto.
Defined.

(** A protocol-relative address and its https form. *)
Lemma fetch_image_bytes_https_form_witness :
  image_bytes (u "//cdn.example/boots.png") start
  = image_bytes (u "https://cdn.example/boots.png") start.
Proof.
  apply (fetch_image_bytes_https_form World session_get (u "//cdn.example/boots.png") start).
  reflexivity.
Defined.

End FurtherRuns.
